(** * Home PPR: the data pipeline of [app.py]

    A shallow embedding of the record store, the schedule calculator, the
    filter views, the monthly aggregation, the calendar export selection and
    the mutation handlers of [app.py], with the properties of its
    specification.

    Conventions of the embedding.
    - A data frame is the list of its rows, in row order.
    - A cell that pandas holds as NaN / NaT / None is [None].
    - A timestamp is the integer pandas stores: nanoseconds since
      1970-01-01T00:00.  A calendar date is its proleptic Gregorian ordinal
      ([datetime.date.toordinal]).  [add_days] is the sum of a timestamp
      and a number of days where the library returns one; where
      [timedelta] or the timestamp addition raises is told by
      [next_service_date_checked].
    - A text is the UTF-8 encoding of the Python string, byte by byte.
    - The wall clock ([datetime.today()]) is the parameter [today]; one run
      of the script sees one value of it. *)

From Stdlib Require Import ZArith List Bool String Ascii Lia.
From Stdlib Require Import Sorting.Sorted.
From Stdlib Require DecimalString.
Import ListNotations.

Open Scope Z_scope.

(** ** Dates and timestamps (datetime / pandas Timestamp) *)

Module Calendar.

Definition date := Z.
Definition Timestamp := Z.

Definition NS_PER_DAY : Z := 86400000000000.

(** [date(1970, 1, 1).toordinal()] *)
Definition EPOCH_ORDINAL : Z := 719163.

(** [ts.date()], [series.dt.date]: the calendar day of a timestamp. *)
Definition ts_date (t : Timestamp) : date := t / NS_PER_DAY + EPOCH_ORDINAL.

(** [pd.to_datetime(d)] for a [date]: midnight of that day. *)
Definition to_datetime (d : date) : Timestamp := (d - EPOCH_ORDINAL) * NS_PER_DAY.

(** [t + timedelta(days=n)], [t + pd.Timedelta(days=n)]: the sum, where
    the library returns one.  It raises when the days or the sum are out
    of the range of the date types; [next_service_date_checked] tells
    where. *)
Definition add_days (t : Timestamp) (n : Z) : Timestamp := t + n * NS_PER_DAY.

(** [d + timedelta(days=n)] on dates. *)
Definition date_add_days (d : date) (n : Z) : date := d + n.

(** The Gregorian calendar of [datetime]: [_is_leap], [_days_before_year],
    [_days_in_month], [_days_before_month], [_ymd2ord], [_ord2ymd]. *)

Definition is_leap (year : Z) : bool :=
  (year mod 4 =? 0) && (negb (year mod 100 =? 0) || (year mod 400 =? 0)).

Definition days_before_year (year : Z) : Z :=
  let y := year - 1 in
  y * 365 + y / 4 - y / 100 + y / 400.

Definition DAYS_IN_MONTH (month : Z) : Z :=
  match month with
  | 1 => 31 | 2 => 28 | 3 => 31 | 4 => 30 | 5 => 31 | 6 => 30
  | 7 => 31 | 8 => 31 | 9 => 30 | 10 => 31 | 11 => 30 | 12 => 31
  | _ => 0
  end.

Definition DAYS_BEFORE_MONTH (month : Z) : Z :=
  match month with
  | 1 => 0 | 2 => 31 | 3 => 59 | 4 => 90 | 5 => 120 | 6 => 151
  | 7 => 181 | 8 => 212 | 9 => 243 | 10 => 273 | 11 => 304 | 12 => 334
  | _ => 0
  end.

Definition days_before_month (year month : Z) : Z :=
  DAYS_BEFORE_MONTH month + (if (2 <? month) && is_leap year then 1 else 0).

Definition ymd2ord (year month day : Z) : date :=
  days_before_year year + days_before_month year month + day.

Definition DI400Y : Z := 146097.
Definition DI100Y : Z := 36524.
Definition DI4Y : Z := 1461.

Definition ord2ymd (n0 : date) : Z * Z * Z :=
  let n := n0 - 1 in
  let n400 := n / DI400Y in
  let n := n mod DI400Y in
  let year := n400 * 400 + 1 in
  let n100 := n / DI100Y in
  let n := n mod DI100Y in
  let n4 := n / DI4Y in
  let n := n mod DI4Y in
  let n1 := n / 365 in
  let n := n mod 365 in
  let year := year + n100 * 100 + n4 * 4 + n1 in
  if (n1 =? 4) || (n100 =? 4) then (year - 1, 12, 31)
  else
    let leapyear := (n1 =? 3) && (negb (n4 =? 24) || (n100 =? 3)) in
    let month := Z.shiftr (n + 50) 5 in
    let preceding :=
      DAYS_BEFORE_MONTH month + (if (2 <? month) && leapyear then 1 else 0) in
    if n <? preceding then
      let month := month - 1 in
      let preceding :=
        preceding
        - (DAYS_IN_MONTH month + (if (month =? 2) && leapyear then 1 else 0)) in
      (year, month, n - preceding + 1)
    else (year, month, n - preceding + 1).

(** [series.dt.to_period("M")]: the (year, month) of a timestamp. *)
Definition to_period_M (t : Timestamp) : Z * Z :=
  let '(y, m, _) := ord2ymd (ts_date t) in (y, m).

(** [period.to_timestamp()] of a monthly period: midnight of its first
    day. *)
Definition to_timestamp (p : Z * Z) : Timestamp :=
  to_datetime (ymd2ord (fst p) (snd p) 1).

End Calendar.
Import Calendar.

Arguments ts_date : simpl never.
Arguments to_datetime : simpl never.
Arguments add_days : simpl never.
Arguments ord2ymd : simpl never.
Arguments ymd2ord : simpl never.
Arguments to_period_M : simpl never.
Arguments to_timestamp : simpl never.

(** ** The equipment table *)

(** One row of the data frame [df], with the columns of the persisted
    table.  Text cells read from an empty CSV field are NaN ([None]); so is
    a missing [id]. *)
Record Row : Type := mkRow {
  id : option Z;
  name : option string;
  model : option string;
  serial : option string;
  last_service_date : option Timestamp;
  interval_days : Z;
  consumables : option string;
  notes : option string;
  photo : option string;
  status : option string
}.

Definition DataFrame := list Row.

(** ** Schedule calculator *)

(** [next_service_date(row)], lines 34-37. *)
Definition next_service_date (row : Row) : option Timestamp :=
  match last_service_date row with
  | None => None
  | Some last =>
      if interval_days row <=? 0 then None
      else Some (add_days last (interval_days row))
  end.

(** [days_to_next(d)], lines 39-42. *)
Definition days_to_next (today : date) (d : option Timestamp) : option Z :=
  match d with
  | None => None
  | Some t => Some (ts_date t - today)
  end.

(** *** The calculator with its exceptions *)

(** What a call gives: a value, or an exception. *)
Inductive outcome (A : Type) : Type :=
| Returned (a : A)
| Raised.
Arguments Returned {A} a.
Arguments Raised {A}.

(** [timedelta.max.days] *)
Definition TIMEDELTA_MAX_DAYS : Z := 999999999.

(** [timedelta(days=n)]: OverflowError ([None]) when the magnitude of [n]
    is above [timedelta.max.days]. *)
Definition timedelta (days : Z) : option Z :=
  if Z.abs days <=? TIMEDELTA_MAX_DAYS then Some days else None.

(** The range of the library's timestamps: [addable t n] tells whether the
    library adds [n] days to [t], that is, whether the sum is a timestamp
    it can hold. *)
Class TimestampRange : Type := {
  addable : Timestamp -> Z -> bool
}.

(** [Timestamp.max.value] *)
Definition TS_MAX : Z := 9223372036854775807.

(** The range of the 64-bit nanosecond timestamp: the days as nanoseconds
    and the sum both fit. *)
Definition ns_range : TimestampRange :=
  {| addable := fun t n =>
       let ns := n * NS_PER_DAY in
       (Z.abs ns <=? TS_MAX) && (- TS_MAX <=? t + ns) && (t + ns <=? TS_MAX) |}.

(** [t + delta] for a timestamp and a timedelta of [days] days: the
    library's out-of-bounds error is [None]. *)
Definition timestamp_add {R : TimestampRange} (t : Timestamp) (days : Z)
    : option Timestamp :=
  if addable t days then Some (add_days t days) else None.

(** [next_service_date(row)], lines 34-37, with the exceptions of line 37:
    [Returned None] is the absent value, [Raised] an OverflowError or an
    out-of-bounds error. *)
Definition next_service_date_checked {R : TimestampRange} (row : Row)
    : outcome (option Timestamp) :=
  match last_service_date row with
  | None => Returned None
  | Some last =>
      if interval_days row <=? 0 then Returned None
      else
        match timedelta (interval_days row) with
        | None => Raised
        | Some days =>
            match timestamp_add last days with
            | Some d => Returned (Some d)
            | None => Raised
            end
        end
  end.

(** ** Text helpers *)

(** [str.isspace] on the ASCII range: tab, line feed, vertical tab, form
    feed, carriage return, the separators 0x1c-0x1f and the space. *)
Definition is_space (c : ascii) : bool :=
  let n := nat_of_ascii c in
  ((9 <=? n) && (n <=? 13) || (28 <=? n) && (n <=? 32))%nat.

(** The other white space of [str.strip], in UTF-8: U+0085 and U+00A0 take
    two bytes (C2 85, C2 A0); U+1680 (E1 9A 80), U+2000-U+200A
    (E2 80 80 - E2 80 8A), U+2028, U+2029, U+202F (E2 80 A8, A9, AF),
    U+205F (E2 81 9F) and U+3000 (E3 80 80) take three. *)
Definition is_space2 (a b : ascii) : bool :=
  let x := nat_of_ascii a in
  let y := nat_of_ascii b in
  ((x =? 194) && ((y =? 133) || (y =? 160)))%nat.

Definition is_space3 (a b c : ascii) : bool :=
  let x := nat_of_ascii a in
  let y := nat_of_ascii b in
  let z := nat_of_ascii c in
  (((x =? 225) && (y =? 154) && (z =? 128))
   || ((x =? 226) && (y =? 128)
       && (((128 <=? z) && (z <=? 138)) || (z =? 168) || (z =? 169) || (z =? 175)))
   || ((x =? 226) && (y =? 129) && (z =? 159))
   || ((x =? 227) && (y =? 128) && (z =? 128)))%nat.

(** Dropping the leading white space, where [two] and [three] recognise
    the encodings of two and three bytes. *)
Fixpoint lstrip_with (two : ascii -> ascii -> bool)
    (three : ascii -> ascii -> ascii -> bool) (s : string) : string :=
  match s with
  | EmptyString => EmptyString
  | String a r1 =>
      if is_space a then lstrip_with two three r1
      else
        match r1 with
        | String b r2 =>
            if two a b then lstrip_with two three r2
            else
              match r2 with
              | String c r3 =>
                  if three a b c then lstrip_with two three r3 else s
              | EmptyString => s
              end
        | EmptyString => s
        end
  end.

(** [s.lstrip()] *)
Definition lstrip (s : string) : string := lstrip_with is_space2 is_space3 s.

Definition string_rev (s : string) : string :=
  string_of_list_ascii (rev (list_ascii_of_string s)).

(** [s.rstrip()]: the same from the end, where the bytes of a character
    come in reverse. *)
Definition rstrip (s : string) : string :=
  string_rev
    (lstrip_with (fun a b => is_space2 b a) (fun a b c => is_space3 c b a)
                 (string_rev s)).

(** [s.strip()] *)
Definition strip (s : string) : string := rstrip (lstrip s).

(** Truth value of a string ([if search:]). *)
Definition nonempty (s : string) : bool :=
  match s with EmptyString => false | _ => true end.

(** [f"{n}"] for an integer. *)
Definition show_Z (n : Z) : string :=
  DecimalString.NilZero.string_of_int (Z.to_int n).

(** The two text operations the filter takes from the library:
    [str_lower s] is [s.lower()] and [str_contains s pat] is
    [Series.str.contains(pat)] at one cell, a regular-expression search of
    [pat] in [s]. *)
Class TextOps : Type := {
  str_lower : string -> string;
  str_contains : string -> string -> bool
}.

(** A concrete instance on ASCII text, where the pattern has no
    metacharacters: lower-casing of A-Z and literal substring search. *)
Definition ascii_lower (c : ascii) : ascii :=
  let n := nat_of_ascii c in
  if ((65 <=? n) && (n <=? 90))%nat then ascii_of_nat (n + 32) else c.

Fixpoint lower_ascii (s : string) : string :=
  match s with
  | EmptyString => EmptyString
  | String c s' => String (ascii_lower c) (lower_ascii s')
  end.

Fixpoint contains_literal (s pat : string) : bool :=
  String.prefix pat s ||
  match s with
  | EmptyString => false
  | String _ s' => contains_literal s' pat
  end.

Definition ascii_text_ops : TextOps :=
  {| str_lower := lower_ascii; str_contains := contains_literal |}.

(** ** Record store *)

(** A field of the CSV file as the two coercing readers classify it: empty,
    text that parses to a value, or text that does not parse. *)
Inductive cell (A : Type) : Type :=
| Blank
| Parsed (a : A)
| Unparsable (text : string).
Arguments Blank {A}.
Arguments Parsed {A} a.
Arguments Unparsable {A} text.

(** A number as [pd.to_numeric] yields it, other than NaN: the float of
    value [n / d], or an infinity.  An integer [z] is [Finite z 1]. *)
Inductive number : Type :=
| Finite (n : Z) (d : positive)
| Infinite.

(** One line of the persisted table.  An empty text field is [None]. *)
Record CsvRow : Type := mkCsvRow {
  csv_id : option Z;
  csv_name : option string;
  csv_model : option string;
  csv_serial : option string;
  csv_last_service_date : cell Timestamp;
  csv_interval_days : cell number;
  csv_consumables : option string;
  csv_notes : option string;
  csv_photo : option string;
  csv_status : option string
}.

(** The world outside the script: the CSV file at [DATA_PATH] ([None] while
    the path does not exist), the memo of [st.cache_data] for [load_data],
    and the files written under [IMG_DIR]. *)
Record Store : Type := mkStore {
  disk : option (list CsvRow);
  cache : option DataFrame;
  images : list string
}.

Definition isnull {A : Type} (o : option A) : bool :=
  match o with None => true | Some _ => false end.

Definition notna {A : Type} (o : option A) : bool := negb (isnull o).

(** [pd.to_numeric(x, errors="coerce")] at one cell: NaN for an empty or
    unparsable field. *)
Definition to_numeric_coerce (c : cell number) : option number :=
  match c with
  | Parsed x => Some x
  | Blank => None
  | Unparsable _ => None
  end.

(** [.fillna(v)] at one cell. *)
Definition fillna (v : number) (x : option number) : number :=
  match x with Some y => y | None => v end.

(** [.astype(int)] at one cell: a finite float is truncated toward zero;
    an infinite one has no integer and the cast raises ([None]). *)
Definition astype_int (x : number) : option Z :=
  match x with
  | Finite n d => Some (Z.quot n (Z.pos d))
  | Infinite => None
  end.

(** Line 25 at one row. *)
Definition interval_column (r : CsvRow) : option Z :=
  astype_int (fillna (Finite 0 1) (to_numeric_coerce (csv_interval_days r))).

(** [pd.to_datetime(x, errors="coerce")] at one cell: NaT for an empty or
    unparsable field. *)
Definition to_datetime_coerce (c : cell Timestamp) : option Timestamp :=
  match c with
  | Parsed t => Some t
  | Blank => None
  | Unparsable _ => None
  end.

(** [range(lo, lo + n)] *)
Definition range (lo : Z) (n : nat) : list Z :=
  map (fun k => lo + Z.of_nat k) (seq 0 n).

(** Lines 21-28 of [load_data]: the frame read from the file, with the
    types ensured.  Where the cast of line 25 raises, the load returns no
    frame ([load_data_checked]); [read_frame] is total and holds 0 in that
    place. *)
Definition read_frame (rows : list CsvRow) : DataFrame :=
  let ids :=
    if forallb (fun r => isnull (csv_id r)) rows
    then map Some (range 1 (List.length rows))
    else map csv_id rows in
  map (fun ir : option Z * CsvRow =>
         let (i, r) := ir in
         mkRow i (csv_name r) (csv_model r) (csv_serial r)
               (to_datetime_coerce (csv_last_service_date r))
               (match interval_column r with Some z => z | None => 0 end)
               (csv_consumables r) (csv_notes r) (csv_photo r) (csv_status r))
      (combine ids rows).

(** [load_data(path)], lines 13-28, under [st.cache_data]. *)
Definition load_data (st : Store) : DataFrame * Store :=
  match cache st with
  | Some df => (df, st)
  | None =>
      let rows := match disk st with Some rows => rows | None => [] end in
      let df := read_frame rows in
      (df, mkStore (Some rows) (Some df) (images st))
  end.

(** Line 25 raises on some row of the table. *)
Definition cast_raises (rows : list CsvRow) : bool :=
  existsb (fun r => isnull (interval_column r)) rows.

(** [load_data(path)] with its exception: [None] when the file is read and
    the cast of line 25 raises; the frame and store of [load_data]
    otherwise. *)
Definition load_data_checked (st : Store) : option (DataFrame * Store) :=
  match cache st with
  | Some df => Some (df, st)
  | None =>
      let rows := match disk st with Some rows => rows | None => [] end in
      if cast_raises rows then None else Some (load_data st)
  end.

(** [save_data(df, path)], lines 30-32. *)
Definition save_data (df : list CsvRow) (st : Store) : Store :=
  mkStore (Some df) None (images st).

(** A text cell as [to_csv] leaves it in the file: NaN and the empty string
    both give an empty field. *)
Definition csv_text (v : option string) : option string :=
  match v with
  | Some EmptyString => None
  | _ => v
  end.

(** [df_to_save = df.copy()] with [last_service_date] formatted by
    [strftime("%Y-%m-%d")], as the file holds it: the date without the time
    of day. *)
Definition to_save (df : DataFrame) : list CsvRow :=
  map (fun r =>
         mkCsvRow (id r) (csv_text (name r)) (csv_text (model r))
                  (csv_text (serial r))
                  (match last_service_date r with
                   | Some t => Parsed (to_datetime (ts_date t))
                   | None => Blank
                   end)
                  (Parsed (Finite (interval_days r) 1))
                  (csv_text (consumables r)) (csv_text (notes r))
                  (csv_text (photo r)) (csv_text (status r)))
      df.

(** ** Filter engine *)

(** [series.isin(values)] at one cell. *)
Definition isin (v : option string) (values : list string) : bool :=
  match v with
  | Some s => existsb (String.eqb s) values
  | None => false
  end.

(** [series.str.lower().str.contains(s, na=False)] at one cell. *)
Definition lower_contains {T : TextOps} (v : option string) (s : string) : bool :=
  match v with
  | Some x => str_contains (str_lower x) s
  | None => false
  end.

(** [filtered], lines 58-67. *)
Definition filtered {T : TextOps} (df : DataFrame) (status_filter : list string)
    (search : string) : DataFrame :=
  let filtered := filter (fun r => isin (status r) status_filter) df in
  if nonempty search then
    let s := str_lower search in
    filter (fun r =>
              lower_contains (name r) s || lower_contains (model r) s
              || lower_contains (serial r) s || lower_contains (consumables r) s
              || lower_contains (notes r) s)
           filtered
  else filtered.

(** The column [next_service_date] of a frame is [next_service_date] applied
    to each row (line 47); no row is changed between that line and the
    views below, so a view reads the column as [next_service_date r]. *)

(** [upcoming], lines 70-74. *)
Definition upcoming (filtered : DataFrame) (today : date) (days_range : Z)
    : DataFrame :=
  let horizon := date_add_days today days_range in
  let upcoming := filter (fun r => notna (next_service_date r)) filtered in
  filter (fun r =>
            match next_service_date r with
            | Some d => (today <=? ts_date d) && (ts_date d <=? horizon)
            | None => false
            end)
         upcoming.

(** [overdue], lines 75-77. *)
Definition overdue (filtered : DataFrame) (today : date) : DataFrame :=
  let overdue := filter (fun r => notna (next_service_date r)) filtered in
  filter (fun r =>
            match next_service_date r with
            | Some d => ts_date d <? today
            | None => false
            end)
         overdue.

(** ** Aggregator *)

(** [groupby(key).size()]: one entry per distinct key, in ascending key
    order, with the number of rows that carry the key.  [count_key] enters
    one row into the sorted counts. *)
Fixpoint count_key (k : Timestamp) (acc : list (Timestamp * Z))
    : list (Timestamp * Z) :=
  match acc with
  | [] => [(k, 1)]
  | (k', c) :: rest =>
      if k <? k' then (k, 1) :: acc
      else if k =? k' then (k', c + 1) :: rest
      else (k', c) :: count_key k rest
  end.

(** Rows whose key is NaT join no group. *)
Definition groupby_size (keys : list (option Timestamp)) : list (Timestamp * Z) :=
  fold_left (fun acc k => match k with Some k => count_key k acc | None => acc end)
            keys [].

(** [.dt.to_period("M").dt.to_timestamp()] at one cell. *)
Definition month_start (t : Timestamp) : Timestamp := to_timestamp (to_period_M t).

Arguments month_start : simpl never.

(** [chart_df], lines 107-108. *)
Definition chart_df (filtered : DataFrame) : DataFrame :=
  filter (fun r => notna (next_service_date r)) filtered.

(** The column [month], line 110. *)
Definition month (r : Row) : option Timestamp :=
  option_map month_start (next_service_date r).

(** [monthly], line 111, as the list of its (month, tasks) rows. *)
Definition monthly (chart_df : DataFrame) : list (Timestamp * Z) :=
  groupby_size (map month chart_df).

(** Lines 107-113: the series handed to the bar chart; [None] when no chart
    is drawn. *)
Definition chart (filtered : DataFrame) : option (list (Timestamp * Z)) :=
  let chart_df := chart_df filtered in
  match chart_df with
  | [] => None
  | _ => Some (monthly chart_df)
  end.

(** ** Calendar exporter *)

(** The lambda of line 223. *)
Definition export_next (r : Row) : option Timestamp :=
  match last_service_date r with
  | Some last =>
      if 0 <? interval_days r then Some (add_days last (interval_days r))
      else None
  | None => None
  end.

(** [upc], lines 222-226. *)
Definition upc (df : DataFrame) (today : date) (horizon_days : Z) : DataFrame :=
  let upc := filter (fun r => notna (export_next r)) df in
  let end_date := date_add_days today horizon_days in
  filter (fun r =>
            match export_next r with
            | Some d => (today <=? ts_date d) && (ts_date d <=? end_date)
            | None => false
            end)
         upc.

(** One VEVENT block: the row it is made from and its all-day date. *)
Record VEvent : Type := mkVEvent {
  ev_uid : option Z;
  ev_dtstart : option date;
  ev_name : option string;
  ev_model : option string;
  ev_consumables : option string;
  ev_notes : option string
}.

Definition vevent (r : Row) : VEvent :=
  mkVEvent (id r) (option_map ts_date (export_next r)) (name r) (model r)
           (consumables r) (notes r).

(** What the export tab shows: the [st.info] notice, or the download button
    with the calendar of the selected rows. *)
Inductive ExportResult : Type :=
| ExportInfo
| ExportDownload (events : list VEvent).

(** [tab_export], lines 219-253. *)
Definition tab_export (df : DataFrame) (today : date) (horizon_days : Z)
    : ExportResult :=
  let upc := upc df today horizon_days in
  match upc with
  | [] => ExportInfo
  | _ => ExportDownload (map vevent upc)
  end.

(** ** Mutation operations *)

(** [series.max()]: the largest value that is not NaN, NaN when there is
    none. *)
Definition col_max (xs : list (option Z)) : option Z :=
  fold_left (fun acc x =>
               match acc, x with
               | Some a, Some b => Some (Z.max a b)
               | None, _ => x
               | _, None => acc
               end)
            xs None.

(** [new_id], line 147, through [int(new_id)] of line 155, which raises on
    NaN ([None]). *)
Definition new_id (df : DataFrame) : option Z :=
  match df with
  | [] => Some 1
  | _ => option_map (fun m => m + 1) (col_max (map id df))
  end.

(** The values of the add form at submission. *)
Record AddInput : Type := mkAddInput {
  in_name : string;
  in_model : string;
  in_serial : string;
  in_last_service : date;
  in_interval_days : Z;
  in_consumables : string;
  in_notes : string;
  in_photo : option string;
  in_status : string
}.

Inductive Notice : Type :=
| Success_added
| Success_date_updated
| Success_status_changed.

Definition IMG_DIR : string := "data/images".

(** [photo_path], lines 148-151. *)
Definition photo_path (nid : Z) (inp : AddInput) : string :=
  match in_photo inp with
  | Some fname => (IMG_DIR ++ "/" ++ show_Z nid ++ "_" ++ fname)%string
  | None => EmptyString
  end.

(** [new_row], lines 154-165. *)
Definition new_row (nid : Z) (inp : AddInput) : Row :=
  mkRow (Some nid) (Some (strip (in_name inp)))
        (Some (strip (in_model inp))) (Some (strip (in_serial inp)))
        (Some (to_datetime (in_last_service inp)))
        (in_interval_days inp)
        (Some (strip (in_consumables inp))) (Some (strip (in_notes inp)))
        (Some (photo_path nid inp)) (Some (in_status inp)).

(** The [if submitted:] block of the add form, lines 146-171.  [None] is an
    uncaught exception. *)
Definition add_form (df : DataFrame) (inp : AddInput) (submitted : bool)
    (st : Store) : option (Store * list Notice) :=
  if submitted then
    match new_id df with
    | None => None
    | Some nid =>
        let st1 :=
          match in_photo inp with
          | Some _ => mkStore (disk st) (cache st) (photo_path nid inp :: images st)
          | None => st
          end in
        let df_new := df ++ [new_row nid inp] in
        Some (save_data (to_save df_new) st1, [Success_added])
    end
  else Some (st, []).

(** [df["id"] == selected_id] at one row. *)
Definition id_is (selected_id : option Z) (r : Row) : bool :=
  match id r, selected_id with
  | Some i, Some j => i =? j
  | _, _ => false
  end.

(** [df[df["id"]==selected_id].iloc[0]], line 178; [None] is the
    IndexError of an empty selection. *)
Definition selected_row (df : DataFrame) (selected_id : option Z) : option Row :=
  find (id_is selected_id) df.

Definition set_status (r : Row) (v : option string) : Row :=
  mkRow (id r) (name r) (model r) (serial r) (last_service_date r)
        (interval_days r) (consumables r) (notes r) (photo r) v.

Definition set_last_service_date (r : Row) (v : option Timestamp) : Row :=
  mkRow (id r) (name r) (model r) (serial r) v
        (interval_days r) (consumables r) (notes r) (photo r) (status r).

(** [row["status"] == "active"] *)
Definition is_active (v : option string) : bool :=
  match v with
  | Some s => String.eqb s "active"
  | None => false
  end.

(** The expression assigned on line 190. *)
Definition toggled_status (v : option string) : string :=
  if is_active v then "archived"%string else "active"%string.

(** The archive button, lines 189-194: the frame after the assignment, the
    store after the save, and the notice. *)
Definition toggle_archive (df : DataFrame) (selected_id : option Z) (st : Store)
    : option (DataFrame * Store * list Notice) :=
  match selected_row df selected_id with
  | None => None
  | Some row =>
      let df' :=
        map (fun r =>
               if id_is selected_id r
               then set_status r (Some (toggled_status (status row)))
               else r)
            df in
      Some (df', save_data (to_save df') st, [Success_status_changed])
  end.

(** The mark-serviced button, lines 182-187. *)
Definition mark_serviced (df : DataFrame) (selected_id : option Z) (today : date)
    (st : Store) : option (DataFrame * Store * list Notice) :=
  match selected_row df selected_id with
  | None => None
  | Some _ =>
      let df' :=
        map (fun r =>
               if id_is selected_id r
               then set_last_service_date r (Some (to_datetime today))
               else r)
            df in
      Some (df', save_data (to_save df') st, [Success_date_updated])
  end.

(** ** Vocabulary of the properties *)

(** A next-service-date lies in the window [today, today + h], as calendar
    days, both ends included. *)
Definition in_window (today h : Z) (o : option Timestamp) : bool :=
  match o with
  | Some d => (today <=? ts_date d) && (ts_date d <=? today + h)
  | None => false
  end.

(** The id values of a frame: the cells of the [id] column that are not
    NaN. *)
Definition present_ids (df : DataFrame) : list Z :=
  flat_map (fun r => match id r with Some i => [i] | None => [] end) df.

(** The status of the record the edit tab targets. *)
Definition status_of (df : DataFrame) (selected_id : option Z)
    : option (option string) :=
  option_map status (selected_row df selected_id).

(** The two values of the status enum. *)
Definition is_enum_status (v : option string) : Prop :=
  v = Some "active"%string \/ v = Some "archived"%string.

(** The [id] column after [load_data]. *)
Definition loaded_ids (rows : list CsvRow) : list (option Z) :=
  if forallb (fun r => isnull (csv_id r)) rows
  then map Some (range 1 (List.length rows))
  else map csv_id rows.

(** The record [r] is due in the month that starts at [k]. *)
Definition due_in_month (k : Timestamp) (r : Row) : bool :=
  match month r with
  | Some m => m =? k
  | None => false
  end.

(** The number of records of a frame due in the month that starts at [k]. *)
Definition tasks_due (k : Timestamp) (fl : DataFrame) : Z :=
  Z.of_nat (List.length (filter (due_in_month k) fl)).

(** The count a month-to-count series gives for [k], 0 when it has no
    entry for it. *)
Fixpoint tasks_of (m : list (Timestamp * Z)) (k : Timestamp) : Z :=
  match m with
  | [] => 0
  | (k', c) :: rest => if k =? k' then c else tasks_of rest k
  end.

(** The invariant of the running counts of [groupby_size]: keys in
    strictly ascending order, every count at least 1. *)
Definition counts_ok (m : list (Timestamp * Z)) : Prop :=
  StronglySorted Z.lt (map fst m) /\ Forall (fun e => 0 < snd e) m.

(** The number of cells of a key column that hold [k]. *)
Definition key_count (k : Timestamp) (keys : list (option Timestamp)) : Z :=
  Z.of_nat (List.length
              (filter (fun x => match x with Some y => y =? k | None => false end)
                      keys)).

(** The check of one day [r + 1] of the 400-year cycle: the first day of
    its month is [d - 1] days before it and reads back as day 1 of the same
    year and month. *)
Definition month_check (r : Z) : bool :=
  let '(y, m, d) := ord2ymd (r + 1) in
  let first := ymd2ord y m 1 in
  (first =? r + 2 - d) && (1 <=? d) && (1 <=? m) && (m <=? 12)
  && (let '(y', m', d') := ord2ymd first in (y' =? y) && (m' =? m) && (d' =? 1)).

Fixpoint check_from (fuel : nat) (r : Z) : bool :=
  match fuel with
  | O => true
  | S f => month_check r && check_from f (r + 1)
  end.


(** ** Sample records *)

(** The scenario of the specification: last service 2024-01-01, interval
    180 days, today 2024-06-20. *)
Definition scenario_row : Row :=
  mkRow (Some 1) (Some "boiler"%string) None None
        (Some (to_datetime (ymd2ord 2024 1 1))) 180 None None None
        (Some "active"%string).

(** The same record archived: the default sidebar filter (status "active")
    leaves it out. *)
Definition archived_row : Row := set_status scenario_row (Some "archived"%string).

(** The store that holds a frame, nothing cached. *)
Definition store_of (df : DataFrame) : Store := mkStore (Some (to_save df)) None [].

(** A record whose status is outside the enum. *)
Definition broken_row : Row := set_status scenario_row (Some "broken"%string).

(** A store with an empty table and nothing cached. *)
Definition empty_store : Store := mkStore (Some []) None [].

(** An add form submitted with every text field left empty. *)
Definition empty_name_input : AddInput :=
  mkAddInput "" "" "" (ymd2ord 2024 6 20) 180 "" "" None "active".

(** An add form submitted with a name. *)
Definition pump_input : AddInput :=
  mkAddInput " pump " "P-1" "" (ymd2ord 2024 6 20) 90 "filter; oil" "" None "active".

(** A table row whose interval field holds a negative number. *)
Definition negative_interval_csv : CsvRow :=
  mkCsvRow (Some 1) (Some "boiler"%string) None None
           (Parsed (to_datetime (ymd2ord 2024 1 1))) (Parsed (Finite (-5) 1))
           None None None (Some "active"%string).

(** A record whose next service falls on the given day, [interval] days
    after its last service. *)
Definition due_on (i : Z) (y m d : Z) (interval : Z) : Row :=
  mkRow (Some i) (Some "item"%string) None None
        (Some (to_datetime (ymd2ord y m d - interval))) interval None None None
        (Some "active"%string).

(** Two records due in 2024-07 and one in 2024-09, and one with no
    schedule. *)
Definition aggregator_scenario : DataFrame :=
  [ due_on 1 2024 9 3 90; due_on 2 2024 7 25 30;
    mkRow (Some 3) (Some "spare"%string) None None None 0 None None None
          (Some "active"%string);
    due_on 4 2024 7 10 365 ].

(** ** The edit form and the calendar text *)

(** The values of the edit form at submission. *)
Record EditInput : Type := mkEditInput {
  name_e : string;
  model_e : string;
  serial_e : string;
  last_service_e : date;
  interval_days_e : Z;
  consumables_e : string;
  notes_e : string;
  status_e : string
}.

Inductive FormNotice : Type :=
| Success_saved.

(** The eight columns that line 208 assigns, at one row. *)
Definition set_edited (r : Row) (e : EditInput) : Row :=
  mkRow (id r) (Some (name_e e)) (Some (model_e e)) (Some (serial_e e))
        (Some (to_datetime (last_service_e e))) (interval_days_e e)
        (Some (consumables_e e)) (Some (notes_e e)) (photo r)
        (Some (status_e e)).

(** The edit form, lines 197-214, below the [row] lookup of line 178. *)
Definition edit_form (df : DataFrame) (selected_id : option Z) (e : EditInput)
    (submitted_e : bool) (st : Store)
    : option (DataFrame * Store * list FormNotice) :=
  match selected_row df selected_id with
  | None => None
  | Some _ =>
      if submitted_e then
        let df' :=
          map (fun r => if id_is selected_id r then set_edited r e else r) df in
        Some (df', save_data (to_save df') st, [Success_saved])
      else Some (df, st, [])
  end.

Definition backslash : ascii := ascii_of_nat 92.

(** [text.replace(c, b + c)] for a one-character [c] and the backslash
    [b]: every [c] gets a backslash in front. *)
Fixpoint replace_escaped (c : ascii) (text : string) : string :=
  match text with
  | EmptyString => EmptyString
  | String a rest =>
      if Ascii.eqb a c
      then String backslash (String c (replace_escaped c rest))
      else String a (replace_escaped c rest)
  end.

(** [ics_escape], lines 231-232: the comma first, then the semicolon. *)
Definition ics_escape (text : string) : string :=
  replace_escaped ";" (replace_escaped "," text).

(** ** Vocabulary of the further properties *)

(** A row after [to_save] and [read_frame]: the last service date has lost
    its time of day and an empty text is missing.  (Texts that the CSV
    reader takes for missing-value markers or numbers are outside the
    model of the file, so the properties below speak of the typed columns
    and of texts the widgets fix.) *)
Definition reloaded (r : Row) : Row :=
  mkRow (id r) (csv_text (name r)) (csv_text (model r)) (csv_text (serial r))
        (option_map (fun t => to_datetime (ts_date t)) (last_service_date r))
        (interval_days r)
        (csv_text (consumables r)) (csv_text (notes r)) (csv_text (photo r))
        (csv_text (status r)).

(** The two characters [ics_escape] treats. *)
Definition is_special (a : ascii) : bool := Ascii.eqb a "," || Ascii.eqb a ";".

(** Every comma and semicolon of [s] has a backslash right before it;
    [prev] tells whether the character before [s] is a backslash. *)
Fixpoint escaped_from (prev : bool) (s : string) : bool :=
  match s with
  | EmptyString => true
  | String a rest =>
      (if is_special a then prev else true)
      && escaped_from (Ascii.eqb a backslash) rest
  end.

(** The number of commas and semicolons of a text. *)
Fixpoint specials (s : string) : nat :=
  match s with
  | EmptyString => O
  | String a rest => ((if is_special a then 1 else 0) + specials rest)%nat
  end.

(** The inverse reading of [ics_escape]: a backslash right before a comma
    or semicolon is dropped. *)
Fixpoint unescape (s : string) : string :=
  match s with
  | EmptyString => EmptyString
  | String a rest =>
      match rest with
      | String b _ =>
          if Ascii.eqb a backslash && is_special b then unescape rest
          else String a (unescape rest)
      | EmptyString => String a EmptyString
      end
  end.

(** Both replacements of [ics_escape] in one pass. *)
Fixpoint escape_both (text : string) : string :=
  match text with
  | EmptyString => EmptyString
  | String a rest =>
      if is_special a
      then String backslash (String a (escape_both rest))
      else String a (escape_both rest)
  end.

(** The sum of the counts of a month-to-count series. *)
Definition total_tasks (m : list (Timestamp * Z)) : Z :=
  fold_right (fun e s => snd e + s) 0 m.

(** A handler's frame [df1] keeps the id column of [df]: the same ids in
    the same rows, hence the same number of rows, the same next new id, and
    distinct ids if they were distinct. *)
Definition keeps_ids (df df1 : DataFrame) : Prop :=
  map id df1 = map id df
  /\ List.length df1 = List.length df
  /\ new_id df1 = new_id df
  /\ (NoDup (present_ids df) -> NoDup (present_ids df1)).

(** The options of the status widgets. *)
Definition STATUS_OPTIONS : list string := ["active"%string; "archived"%string].

(** A text of white space only: every character is one that [str.strip]
    strips. *)
Fixpoint blank (s : string) : bool :=
  match s with
  | EmptyString => true
  | String a r1 =>
      if is_space a then blank r1
      else
        match r1 with
        | String b r2 =>
            if is_space2 a b then blank r2
            else
              match r2 with
              | String c r3 => if is_space3 a b c then blank r3 else false
              | EmptyString => false
              end
        | EmptyString => false
        end
  end.

(** The number field of the edit form, line 202, has [min_value=0] and the
    stored interval as its value: it is built only when the stored interval
    is not negative. *)
Definition interval_field_builds (row : Row) : bool := 0 <=? interval_days row.

(** The edit form with the construction of its fields: [None] is the
    IndexError of line 178 or the error of the number field of line 202. *)
Definition edit_form_checked (df : DataFrame) (selected_id : option Z)
    (e : EditInput) (submitted_e : bool) (st : Store)
    : option (DataFrame * Store * list FormNotice) :=
  match selected_row df selected_id with
  | None => None
  | Some row =>
      if interval_field_builds row
      then edit_form df selected_id e submitted_e st
      else None
  end.

(** U+00A0 and U+2003 in UTF-8. *)
Definition nbsp : string :=
  String (ascii_of_nat 194) (String (ascii_of_nat 160) EmptyString).

Definition em_space : string :=
  String (ascii_of_nat 226)
         (String (ascii_of_nat 128) (String (ascii_of_nat 131) EmptyString)).

(** Sample data of the further properties. *)
Definition blank_name_input : AddInput :=
  mkAddInput (" " ++ nbsp ++ em_space ++ " ") "" "" (ymd2ord 2024 6 20) 180
             "" "" None "active".

(** A record with an interval of a thousand million days. *)
Definition far_row : Row :=
  mkRow (Some 1) (Some "vault"%string) None None
        (Some (to_datetime (ymd2ord 2024 1 1))) 1000000000 None None None
        (Some "active"%string).



Definition infinite_csv : CsvRow :=
  mkCsvRow (Some 4) (Some "tank"%string) None None Blank
           (Parsed Infinite) None None None (Some "active"%string).

Definition repair_input : EditInput :=
  mkEditInput "boiler" "B-2" "" (ymd2ord 2024 6 20) 30 "" "" "active".

Definition idless_csv : CsvRow :=
  mkCsvRow None (Some "kettle"%string) None None Blank (Unparsable "soon")
           None None None (Some "active"%string).

Definition overdue_row : Row := due_on 7 2024 5 1 30.

(** * Properties *)

Section CalendarFacts.

Lemma ts_date_add_days (t : Timestamp) (n : Z) :
  ts_date (add_days t n) = ts_date t + n.
Proof.
  unfold ts_date, add_days.
  rewrite Z.div_add by (unfold NS_PER_DAY; lia).
  lia.
Qed.

Lemma ts_date_to_datetime (d : date) : ts_date (to_datetime d) = d.
Proof.
  unfold ts_date, to_datetime.
  rewrite Z.div_mul by (unfold NS_PER_DAY; lia).
  lia.
Qed.

(** The calendar repeats every 400 years, which are [DI400Y] days. *)
Lemma ord2ymd_cycle (n q : Z) :
  ord2ymd (n + DI400Y * q) = let '(y, m, d) := ord2ymd n in (y + 400 * q, m, d).
Proof.
  unfold ord2ymd. cbv zeta.
  replace (n + DI400Y * q - 1) with (n - 1 + q * DI400Y) by lia.
  rewrite Z.div_add, Z.mod_add by (unfold DI400Y; lia).
  set (r := (n - 1) mod DI400Y).
  repeat match goal with
         | |- context [if ?b then _ else _] => destruct b
         end; f_equal; try f_equal; lia.
Qed.

Lemma is_leap_cycle (y q : Z) : is_leap (y + 400 * q) = is_leap y.
Proof.
  unfold is_leap.
  replace (y + 400 * q) with (y + (100 * q) * 4) at 1 by lia.
  replace (y + 400 * q) with (y + (4 * q) * 100) at 1 by lia.
  replace (y + 400 * q) with (y + q * 400) by lia.
  rewrite !Z.mod_add by lia. reflexivity.
Qed.

Lemma ymd2ord_cycle (y m d q : Z) :
  ymd2ord (y + 400 * q) m d = ymd2ord y m d + DI400Y * q.
Proof.
  unfold ymd2ord, days_before_month, days_before_year. cbv zeta.
  rewrite is_leap_cycle.
  replace (y + 400 * q - 1) with (y - 1 + (100 * q) * 4) at 2 by lia.
  replace (y + 400 * q - 1) with (y - 1 + (4 * q) * 100) at 2 by lia.
  replace (y + 400 * q - 1) with (y - 1 + q * 400) at 2 by lia.
  rewrite !Z.div_add by lia.
  unfold DI400Y. lia.
Qed.

Lemma check_from_sound (fuel : nat) (r0 : Z) :
  check_from fuel r0 = true ->
  forall r, r0 <= r < r0 + Z.of_nat fuel -> month_check r = true.
Proof.
  revert r0. induction fuel as [|f IH]; intros r0 Hc r Hr; [lia|].
  simpl in Hc. apply andb_true_iff in Hc as [H0 Hrest].
  destruct (Z.eq_dec r r0) as [->|Hne]; [exact H0|].
  apply (IH (r0 + 1) Hrest). lia.
Qed.

(** Every day of one cycle passes the check, by evaluation. *)
Lemma check_cycle : check_from (Z.to_nat DI400Y) 0 = true.
Proof. vm_cast_no_check (eq_refl true). Qed.

(** The first day of the month of any day [n]: it is [d - 1] days before
    [n] and it is day 1 of the same year and month. *)
Lemma first_of_month (n : Z) :
  let '(y, m, d) := ord2ymd n in
  ymd2ord y m 1 = n + 1 - d /\ 1 <= d /\ 1 <= m <= 12
  /\ ord2ymd (ymd2ord y m 1) = (y, m, 1).
Proof.
  set (q := (n - 1) / DI400Y).
  set (r := (n - 1) mod DI400Y).
  assert (Hn : n = r + 1 + DI400Y * q).
  { unfold q, r. pose proof (Z.div_mod (n - 1) DI400Y). unfold DI400Y in *. lia. }
  assert (Hr : 0 <= r < 0 + Z.of_nat (Z.to_nat DI400Y)).
  { unfold r. pose proof (Z.mod_pos_bound (n - 1) DI400Y).
    unfold DI400Y in *. lia. }
  pose proof (check_from_sound _ _ check_cycle r Hr) as Hc.
  rewrite Hn, ord2ymd_cycle.
  unfold month_check in Hc.
  destruct (ord2ymd (r + 1)) as [[y m] d].
  cbv zeta in Hc.
  rewrite ymd2ord_cycle, ord2ymd_cycle.
  destruct (ord2ymd (ymd2ord y m 1)) as [[y' m'] d'].
  rewrite !andb_true_iff, !Z.eqb_eq, !Z.leb_le in Hc.
  destruct Hc as [[[[H1 H2] H3] H4] [[H5 H6] H7]].
  subst y' m' d'.
  repeat split; lia.
Qed.

(** [month_start t] is midnight of day 1 of the month of [t], and not
    after [t]. *)
Lemma month_start_first (t : Timestamp) :
  to_period_M (month_start t) = to_period_M t
  /\ ord2ymd (ts_date (month_start t))
     = (fst (to_period_M t), snd (to_period_M t), 1)
  /\ 1 <= snd (to_period_M t) <= 12
  /\ month_start t = to_datetime (ts_date (month_start t))
  /\ month_start t <= t.
Proof.
  unfold month_start, to_timestamp, to_period_M.
  rewrite !ts_date_to_datetime.
  pose proof (first_of_month (ts_date t)) as H.
  destruct (ord2ymd (ts_date t)) as [[y m] d].
  destruct H as [Hfirst [Hd [Hm Hback]]].
  simpl fst; simpl snd.
  rewrite Hback.
  repeat split; try lia.
  rewrite Hfirst. unfold to_datetime, ts_date.
  pose proof (Z.mul_div_le t NS_PER_DAY).
  unfold NS_PER_DAY in *. lia.
Qed.

End CalendarFacts.

Example scenario_next :
  option_map (fun t => ord2ymd (ts_date t)) (next_service_date scenario_row)
  = Some (2024, 6, 29).
Proof. reflexivity. Qed.

Example scenario_days :
  days_to_next (ymd2ord 2024 6 20) (next_service_date scenario_row) = Some 9.
Proof. reflexivity. Qed.

Example scenario_upcoming :
  upcoming [scenario_row] (ymd2ord 2024 6 20) 10 = [scenario_row]
  /\ upcoming [scenario_row] (ymd2ord 2024 6 20) 5 = []
  /\ overdue [scenario_row] (ymd2ord 2024 6 20) = [].
Proof. repeat split. Qed.

(** C1, as the code has it. For every record, [next_service_date] is
    present if and only if [last_service_date] is present, [interval_days]
    is positive and the date types hold the sum: [interval_days] is at most
    [timedelta.max.days] and the library can add that many days to the last
    service date.  When present it is [last_service_date] plus
    [interval_days] days (the same time of day, [interval_days] calendar
    days later).  It is the absent value, a normal return, exactly when
    [last_service_date] is absent or [interval_days <= 0]; in the remaining
    case, an interval that the date types do not hold, line 37 raises.
    Whatever the call returns is what the views read. *)
Theorem next_service_date_checked_spec {R : TimestampRange} (row : Row) :
  (forall d,
      next_service_date_checked row = Returned (Some d) <->
      exists last, last_service_date row = Some last
                   /\ 0 < interval_days row <= TIMEDELTA_MAX_DAYS
                   /\ addable last (interval_days row) = true
                   /\ d = add_days last (interval_days row))
  /\ (forall d,
        next_service_date_checked row = Returned (Some d) ->
        exists last, last_service_date row = Some last
                     /\ d = last + interval_days row * NS_PER_DAY
                     /\ ts_date d = date_add_days (ts_date last) (interval_days row))
  /\ (next_service_date_checked row = Returned None <->
      last_service_date row = None \/ interval_days row <= 0)
  /\ (next_service_date_checked row = Raised <->
      exists last, last_service_date row = Some last
                   /\ 0 < interval_days row
                   /\ (TIMEDELTA_MAX_DAYS < interval_days row
                       \/ addable last (interval_days row) = false))
  /\ (forall o, next_service_date_checked row = Returned o ->
                next_service_date row = o).
Proof.
  unfold next_service_date_checked, next_service_date, timedelta, timestamp_add,
    date_add_days.
  destruct (last_service_date row) as [last|].
  2:{ split; [intros d; split; [discriminate | intros [l [Hl _]]; discriminate]|].
      split; [intros d; discriminate|].
      split; [split; [intros _; left; reflexivity | reflexivity]|].
      split; [split; [discriminate | intros [l [Hl _]]; discriminate]|].
      intros o H; injection H as <-; reflexivity. }
  destruct (Z.leb_spec (interval_days row) 0) as [Hle|Hgt].
  { split; [intros d; split; [discriminate | intros [l [_ [Hr _]]]; lia]|].
    split; [intros d; discriminate|].
    split; [split; [intros _; right; exact Hle | reflexivity]|].
    split; [split; [discriminate | intros [l [_ [Hr _]]]; lia]|].
    intros o H; injection H as <-; reflexivity. }
  rewrite Z.abs_eq by lia.
  destruct (Z.leb_spec (interval_days row) TIMEDELTA_MAX_DAYS) as [Hmax|Hmax].
  - destruct (addable last (interval_days row)) eqn:Hadd.
    + split.
      { intros d; split.
        - intros H; injection H as <-. exists last.
          split; [reflexivity|]. split; [lia|]. split; [exact Hadd | reflexivity].
        - intros [l [Hl [_ [_ ->]]]]. injection Hl as <-. reflexivity. }
      split.
      { intros d H; injection H as <-. exists last.
        split; [reflexivity|]. split; [reflexivity | apply ts_date_add_days]. }
      split; [split; [discriminate | intros [H|H]; [discriminate | lia]]|].
      split.
      { split; [discriminate|].
        intros [l [Hl [_ [H|H]]]]; [lia|].
        injection Hl as <-. congruence. }
      intros o H; injection H as <-; reflexivity.
    + split.
      { intros d; split; [discriminate|].
        intros [l [Hl [_ [H _]]]]. injection Hl as <-. congruence. }
      split; [intros d; discriminate|].
      split; [split; [discriminate | intros [H|H]; [discriminate | lia]]|].
      split.
      { split; [|reflexivity]. intros _. exists last.
        split; [reflexivity|]. split; [lia|]. right. exact Hadd. }
      intros o; discriminate.
  - split; [intros d; split; [discriminate | intros [l [_ [Hr _]]]; lia]|].
    split; [intros d; discriminate|].
    split; [split; [discriminate | intros [H|H]; [discriminate | lia]]|].
    split.
    { split; [|reflexivity]. intros _. exists last.
      split; [reflexivity|]. split; [lia|]. left. exact Hmax. }
    intros o; discriminate.
Qed.

(** C1, as stated, fails: a record with a last service date and an
    interval of a thousand million days has no next-service-date, and the
    call does not return the absent value either: [timedelta] raises,
    whatever the range of the timestamps. *)
Lemma next_service_date_raises :
  (exists last, last_service_date far_row = Some last)
  /\ interval_days far_row > 0
  /\ (forall R : TimestampRange,
        next_service_date_checked (R := R) far_row = Raised)
  /\ ~ (exists d, next_service_date_checked (R := ns_range) far_row
                  = Returned (Some d)).
Proof.
  split; [eexists; reflexivity|].
  split; [reflexivity|].
  split; [intros R; reflexivity|].
  intros [d Hd]. discriminate.
Qed.

(** Within the range the call returns: the scenario of the specification
    with the 64-bit nanosecond timestamps. *)
Example scenario_next_checked :
  next_service_date_checked (R := ns_range) scenario_row
  = Returned (next_service_date scenario_row).
Proof. reflexivity. Qed.

(** ** Filter engine: the two dated views *)

Section Views.

Lemma notna_Some {A : Type} (o : option A) :
  notna o = true <-> exists a, o = Some a.
Proof.
  destruct o as [a|]; simpl; split; intros H.
  - exists a; reflexivity.
  - reflexivity.
  - discriminate.
  - destruct H as [a Ha]; discriminate.
Qed.

Lemma upcoming_In (fl : DataFrame) (today H : Z) (r : Row) :
  In r (upcoming fl today H) <->
  In r fl /\ exists d, next_service_date r = Some d
                       /\ today <= ts_date d <= today + H.
Proof.
  unfold upcoming, date_add_days.
  rewrite !filter_In.
  split.
  - intros [[Hin _] Hrange].
    split; [exact Hin|].
    destruct (next_service_date r) as [d|]; [|discriminate].
    exists d; split; [reflexivity | lia].
  - intros [Hin [d [Hd Hrange]]].
    rewrite Hd; simpl.
    repeat split; [exact Hin | lia].
Qed.

Lemma overdue_In (fl : DataFrame) (today : Z) (r : Row) :
  In r (overdue fl today) <->
  In r fl /\ exists d, next_service_date r = Some d /\ ts_date d < today.
Proof.
  unfold overdue.
  rewrite !filter_In.
  split.
  - intros [[Hin _] Hlt].
    split; [exact Hin|].
    destruct (next_service_date r) as [d|]; [|discriminate].
    exists d; split; [reflexivity | lia].
  - intros [Hin [d [Hd Hlt]]].
    rewrite Hd; simpl.
    repeat split; [exact Hin | lia].
Qed.

Lemma filtered_incl {T : TextOps} (df : DataFrame) (sf : list string)
    (search : string) (r : Row) :
  In r (filtered df sf search) -> In r df /\ isin (status r) sf = true.
Proof.
  unfold filtered.
  destruct (nonempty search).
  - rewrite !filter_In; intros [[Hin Hst] _]; split; assumption.
  - rewrite filter_In; intros H; exact H.
Qed.

End Views.

(** C2. For every record set, every status filter and search text, every
    [today] and every horizon [H]: each record of Upcoming has a computable
    next-service-date [d] with [today <= d <= today + H] (as calendar
    days), each record of Overdue has a computable next-service-date [d]
    with [d < today], no record is in both views, and a record without a
    computable next date is in neither. *)
Theorem upcoming_overdue_spec {T : TextOps} (df : DataFrame)
    (status_filter : list string) (search : string) (today H : Z) :
  let base := filtered df status_filter search in
  (forall r, In r (upcoming base today H) ->
     In r base /\
     exists d, next_service_date r = Some d
               /\ today <= ts_date d /\ ts_date d <= date_add_days today H)
  /\ (forall r, In r (overdue base today) ->
        In r base /\
        exists d, next_service_date r = Some d /\ ts_date d < today)
  /\ (forall r, In r (upcoming base today H) -> ~ In r (overdue base today))
  /\ (forall r, next_service_date r = None ->
        ~ In r (upcoming base today H) /\ ~ In r (overdue base today)).
Proof.
  intros base.
  split; [|split; [|split]].
  - intros r Hr.
    apply upcoming_In in Hr as [Hin [d [Hd Hrange]]].
    split; [exact Hin|].
    exists d; unfold date_add_days; repeat split; [exact Hd | lia | lia].
  - intros r Hr.
    apply overdue_In in Hr as [Hin [d [Hd Hlt]]].
    split; [exact Hin|].
    exists d; split; assumption.
  - intros r Hup Hov.
    apply upcoming_In in Hup as [_ [d [Hd Hrange]]].
    apply overdue_In in Hov as [_ [d' [Hd' Hlt]]].
    rewrite Hd in Hd'; injection Hd' as <-.
    lia.
  - intros r Hnone; split; intros Hin.
    + apply upcoming_In in Hin as [_ [d [Hd _]]]; congruence.
    + apply overdue_In in Hin as [_ [d [Hd _]]]; congruence.
Qed.

(** ** Calendar exporter *)

Section Exporter.

(** The lambda of the export tab computes the schedule calculator's
    date. *)
Lemma export_next_eq (r : Row) : export_next r = next_service_date r.
Proof.
  unfold export_next, next_service_date.
  destruct (last_service_date r) as [last|]; [|reflexivity].
  destruct (Z.ltb_spec 0 (interval_days r)), (Z.leb_spec (interval_days r) 0);
    try reflexivity; lia.
Qed.

Lemma upc_filter (df : DataFrame) (today h : Z) :
  upc df today h = filter (fun r => in_window today h (next_service_date r)) df.
Proof.
  unfold upc, in_window, date_add_days.
  induction df as [|r df IH]; [reflexivity|].
  simpl.
  rewrite export_next_eq.
  destruct (next_service_date r) as [d|] eqn:Hd; simpl.
  - rewrite export_next_eq, Hd.
    destruct ((today <=? ts_date d) && (ts_date d <=? today + h));
      rewrite IH; reflexivity.
  - exact IH.
Qed.

Lemma in_window_true (today h : Z) (o : option Timestamp) :
  in_window today h o = true <->
  exists d, o = Some d /\ today <= ts_date d <= today + h.
Proof.
  unfold in_window.
  destruct o as [d|]; split.
  - intros Hw; exists d; split; [reflexivity | lia].
  - intros [d' [Hd' Hr]]; injection Hd' as <-; lia.
  - discriminate.
  - intros [d' [Hd' _]]; discriminate.
Qed.

Lemma upc_In (df : DataFrame) (today h : Z) (r : Row) :
  In r (upc df today h) <->
  In r df /\ exists d, next_service_date r = Some d
                       /\ today <= ts_date d <= today + h.
Proof.
  rewrite upc_filter, filter_In, in_window_true.
  reflexivity.
Qed.

Lemma filter_none {A : Type} (f : A -> bool) (l : list A) :
  (forall a, In a l -> f a = false) -> filter f l = [].
Proof.
  induction l as [|a l IH]; intros Hf; [reflexivity|].
  simpl. rewrite (Hf a (or_introl eq_refl)).
  apply IH. intros b Hb; apply Hf; right; exact Hb.
Qed.

Lemma tab_export_cases (df : DataFrame) (today h : Z) :
  (upc df today h = [] /\ tab_export df today h = ExportInfo)
  \/ (upc df today h <> []
      /\ tab_export df today h = ExportDownload (map vevent (upc df today h))).
Proof.
  unfold tab_export.
  destruct (upc df today h) as [|r l].
  - left; split; reflexivity.
  - right; split; [discriminate | reflexivity].
Qed.

End Exporter.




(** ** Identifiers *)

Section Ids.

Lemma col_max_fold (xs : list (option Z)) (acc : option Z) :
  let f := fun (acc x : option Z) =>
             match acc, x with
             | Some a, Some b => Some (Z.max a b)
             | None, _ => x
             | _, None => acc
             end in
  match fold_left f xs acc with
  | None => acc = None /\ forall x, In x xs -> x = None
  | Some m =>
      (acc = Some m \/ In (Some m) xs)
      /\ (forall a, acc = Some a -> a <= m)
      /\ (forall i, In (Some i) xs -> i <= m)
  end.
Proof.
  intros f. revert acc.
  induction xs as [|x xs IH]; intros acc; simpl.
  - destruct acc as [a|].
    + split; [left; reflexivity|].
      split; [intros a' Ha; injection Ha as <-; lia | intros i []].
    + split; [reflexivity | intros x []].
  - specialize (IH (f acc x)).
    destruct (fold_left f xs (f acc x)) as [m|].
    + destruct IH as [Hwit [Hacc Hall]].
      destruct acc as [a|], x as [b|]; simpl in *.
      * specialize (Hacc _ eq_refl).
        split; [|split].
        -- destruct Hwit as [Hw|Hw]; [|right; right; exact Hw].
           injection Hw as Hw.
           destruct (Z.max_spec a b) as [[_ Hm]|[_ Hm]]; rewrite Hm in Hw; subst.
           ++ right; left; reflexivity.
           ++ left; reflexivity.
        -- intros a' Ha; injection Ha as <-; lia.
        -- intros i [Hi|Hi]; [injection Hi as <-; lia | apply Hall; exact Hi].
      * specialize (Hacc _ eq_refl).
        split; [|split].
        -- destruct Hwit as [Hw|Hw]; [left; exact Hw | right; right; exact Hw].
        -- intros a' Ha; injection Ha as <-; exact Hacc.
        -- intros i [Hi|Hi]; [discriminate | apply Hall; exact Hi].
      * specialize (Hacc _ eq_refl).
        split; [|split].
        -- destruct Hwit as [Hw|Hw]; [right; left; exact Hw | right; right; exact Hw].
        -- intros a' Ha; discriminate.
        -- intros i [Hi|Hi]; [injection Hi as <-; exact Hacc | apply Hall; exact Hi].
      * split; [|split].
        -- destruct Hwit as [Hw|Hw]; [discriminate | right; right; exact Hw].
        -- intros a' Ha; discriminate.
        -- intros i [Hi|Hi]; [discriminate | apply Hall; exact Hi].
    + destruct IH as [Hacc Hall].
      destruct acc as [a|], x as [b|]; simpl in *; try discriminate.
      split; [reflexivity|].
      intros x [Hx|Hx]; [symmetry; exact Hx | apply Hall; exact Hx].
Qed.

(** [col_max] is the maximum of the values that are present. *)
Lemma col_max_Some (xs : list (option Z)) (m : Z) :
  col_max xs = Some m ->
  In (Some m) xs /\ forall i, In (Some i) xs -> i <= m.
Proof.
  intros Hm. pose proof (col_max_fold xs None) as H.
  simpl in H. unfold col_max in Hm. rewrite Hm in H.
  destruct H as [[Hw|Hw] [_ Hall]]; [discriminate|].
  split; assumption.
Qed.

Lemma col_max_None (xs : list (option Z)) :
  col_max xs = None -> forall x, In x xs -> x = None.
Proof.
  intros Hm. pose proof (col_max_fold xs None) as H.
  simpl in H. unfold col_max in Hm. rewrite Hm in H.
  apply H.
Qed.

Lemma present_ids_In (df : DataFrame) (i : Z) :
  In i (present_ids df) <-> In (Some i) (map id df).
Proof.
  unfold present_ids. rewrite in_flat_map, in_map_iff.
  split.
  - intros [r [Hr Hi]]. exists r.
    destruct (id r) as [j|]; simpl in Hi; [|destruct Hi].
    destruct Hi as [<-|[]]. split; [reflexivity | exact Hr].
  - intros [r [Hid Hr]]. exists r. split; [exact Hr|].
    rewrite Hid; left; reflexivity.
Qed.

Lemma present_ids_app (df1 df2 : DataFrame) :
  present_ids (df1 ++ df2) = present_ids df1 ++ present_ids df2.
Proof. unfold present_ids. apply flat_map_app. Qed.

Lemma NoDup_snoc {A : Type} (l : list A) (a : A) :
  NoDup l -> ~ In a l -> NoDup (l ++ [a]).
Proof.
  induction l as [|b l IH]; intros Hnd Hni; simpl.
  - constructor; [intros [] | constructor].
  - inversion Hnd as [|? ? Hb Hl]; subst.
    constructor.
    + rewrite in_app_iff; intros [Hin|[Hin|[]]]; [exact (Hb Hin)|].
      apply Hni; left; symmetry; exact Hin.
    + apply IH; [exact Hl|]. intros Hin; apply Hni; right; exact Hin.
Qed.

Lemma map_fst_combine {A B : Type} (l1 : list A) (l2 : list B) :
  List.length l1 = List.length l2 -> map fst (combine l1 l2) = l1.
Proof.
  revert l2; induction l1 as [|a l1 IH]; intros [|b l2] Hlen;
    simpl in *; try discriminate; [reflexivity|].
  f_equal; apply IH; congruence.
Qed.

Lemma map_snd_combine {A B : Type} (l1 : list A) (l2 : list B) :
  List.length l1 = List.length l2 -> map snd (combine l1 l2) = l2.
Proof.
  revert l2; induction l1 as [|a l1 IH]; intros [|b l2] Hlen;
    simpl in *; try discriminate; [reflexivity|].
  f_equal; apply IH; congruence.
Qed.

Lemma range_length (lo : Z) (n : nat) : List.length (range lo n) = n.
Proof. unfold range. rewrite length_map, length_seq. reflexivity. Qed.

Lemma loaded_ids_length (rows : list CsvRow) :
  List.length (loaded_ids rows) = List.length rows.
Proof.
  unfold loaded_ids.
  destruct (forallb _ rows); rewrite !length_map; [apply range_length | reflexivity].
Qed.

Lemma read_frame_ids (rows : list CsvRow) :
  map id (read_frame rows) = loaded_ids rows.
Proof.
  unfold read_frame. fold (loaded_ids rows).
  rewrite map_map.
  rewrite <- (map_fst_combine (loaded_ids rows) rows (loaded_ids_length rows)) at 2.
  apply map_ext. intros [i r]; reflexivity.
Qed.

Lemma read_frame_length (rows : list CsvRow) :
  List.length (read_frame rows) = List.length rows.
Proof.
  unfold read_frame. fold (loaded_ids rows).
  rewrite length_map, length_combine, loaded_ids_length.
  apply Nat.min_id.
Qed.

(** A loaded frame that has rows has an id that is not NaN. *)
Lemma read_frame_has_id (rows : list CsvRow) :
  read_frame rows = [] \/ exists i, In (Some i) (map id (read_frame rows)).
Proof.
  rewrite read_frame_ids. unfold loaded_ids.
  destruct rows as [|r rows]; [left; reflexivity|right].
  destruct (forallb _ (r :: rows)) eqn:Hall.
  - exists 1. simpl. left. reflexivity.
  - assert (Hex : exists r', In r' (r :: rows) /\ isnull (csv_id r') = false).
    { clear -Hall. induction (r :: rows) as [|a l IH]; [discriminate|].
      simpl in Hall. destruct (isnull (csv_id a)) eqn:Ha.
      - destruct (IH Hall) as [r' [Hin Hr']]. exists r'; split; [right|]; assumption.
      - exists a; split; [left; reflexivity | exact Ha]. }
    destruct Hex as [r' [Hin Hr']].
    destruct (csv_id r') as [i|] eqn:Hi; [|discriminate].
    exists i. rewrite <- Hi. apply in_map. exact Hin.
Qed.

Lemma new_id_total (df : DataFrame) :
  df = [] \/ (exists i, In (Some i) (map id df)) ->
  exists n, new_id df = Some n.
Proof.
  intros [->|[i Hi]]; [exists 1; reflexivity|].
  unfold new_id. destruct df as [|r df]; [destruct Hi|].
  destruct (col_max (map id (r :: df))) as [m|] eqn:Hm.
  - exists (m + 1); reflexivity.
  - pose proof (col_max_None _ Hm _ Hi); discriminate.
Qed.

Lemma new_id_max (df : DataFrame) (n : Z) :
  new_id df = Some n ->
  (df = [] /\ n = 1)
  \/ (df <> [] /\ In (Some (n - 1)) (map id df)
      /\ forall i, In (Some i) (map id df) -> i <= n - 1).
Proof.
  unfold new_id. destruct df as [|r df].
  - intros Hn; injection Hn as <-; left; split; reflexivity.
  - destruct (col_max (map id (r :: df))) as [m|] eqn:Hm; [|discriminate].
    intros Hn; injection Hn as <-.
    right. split; [discriminate|].
    replace (m + 1 - 1) with m by lia.
    exact (col_max_Some _ _ Hm).
Qed.

Lemma new_id_fresh (df : DataFrame) (n : Z) :
  new_id df = Some n -> ~ In n (present_ids df).
Proof.
  intros Hn Hin.
  apply present_ids_In in Hin.
  destruct (new_id_max df n Hn) as [[-> _]|[_ [_ Hall]]]; [destruct Hin|].
  specialize (Hall n Hin). lia.
Qed.

End Ids.

Section AddRecord.

Lemma present_ids_of_ids (df : DataFrame) :
  present_ids df
  = flat_map (fun o : option Z => match o with Some i => [i] | None => [] end)
             (map id df).
Proof.
  unfold present_ids.
  induction df as [|r df IH]; [reflexivity|].
  simpl. rewrite IH. reflexivity.
Qed.

Lemma to_save_ids (df : DataFrame) : map csv_id (to_save df) = map id df.
Proof.
  unfold to_save. rewrite map_map. reflexivity.
Qed.

Lemma to_save_length (df : DataFrame) :
  List.length (to_save df) = List.length df.
Proof. unfold to_save. apply length_map. Qed.

(** Reloading a saved frame that has an id keeps the [id] column. *)
Lemma reload_ids (df : DataFrame) (i : Z) :
  In (Some i) (map id df) ->
  map id (read_frame (to_save df)) = map id df.
Proof.
  intros Hi.
  rewrite read_frame_ids. unfold loaded_ids.
  rewrite to_save_ids.
  destruct (forallb _ (to_save df)) eqn:Hall; [|reflexivity].
  exfalso.
  rewrite forallb_forall in Hall.
  rewrite <- to_save_ids in Hi.
  apply in_map_iff in Hi as [c [Hc Hin]].
  specialize (Hall c Hin). rewrite Hc in Hall. discriminate.
Qed.

(** What a submitted add form does, for any name. *)
Lemma add_form_submitted (df : DataFrame) (inp : AddInput) (st : Store) (n : Z) :
  new_id df = Some n ->
  exists row st',
    add_form df inp true st = Some (st', [Success_added])
    /\ id row = Some n
    /\ name row = Some (strip (in_name inp))
    /\ last_service_date row = Some (to_datetime (in_last_service inp))
    /\ interval_days row = in_interval_days inp
    /\ status row = Some (in_status inp)
    /\ disk st' = Some (to_save (df ++ [row]))
    /\ cache st' = None.
Proof.
  intros Hn. unfold add_form. rewrite Hn.
  exists (new_row n inp). eexists.
  split; [reflexivity|].
  simpl. repeat split.
Qed.

End AddRecord.

(** C6. For every persisted table, the id that Add assigns to the loaded
    frame is 1 when the table is empty and otherwise the largest existing
    id plus one; it is no existing id, and when the ids of the table are
    pairwise distinct so are the ids of the table that Add writes, and of
    the frame loaded from it. *)
Theorem new_id_spec (rows : list CsvRow) (inp : AddInput) (st : Store)
    (Huniq : NoDup (present_ids (read_frame rows))) :
  let df := read_frame rows in
  exists n row st',
    new_id df = Some n
    /\ (df = [] -> n = 1)
    /\ (df <> [] ->
        In (Some (n - 1)) (map id df)
        /\ forall i, In (Some i) (map id df) -> i <= n - 1)
    /\ add_form df inp true st = Some (st', [Success_added])
    /\ id row = Some n
    /\ disk st' = Some (to_save (df ++ [row]))
    /\ ~ In n (present_ids df)
    /\ NoDup (present_ids (df ++ [row]))
    /\ present_ids (read_frame (to_save (df ++ [row]))) = present_ids df ++ [n].
Proof.
  intros df.
  destruct (new_id_total df (read_frame_has_id rows)) as [n Hn].
  destruct (add_form_submitted df inp st n Hn)
    as [row [st' [Hadd [Hid [_ [_ [_ [_ [Hdisk _]]]]]]]]].
  assert (Hrow : present_ids [row] = [n]).
  { unfold present_ids; simpl. rewrite Hid. reflexivity. }
  exists n, row, st'.
  split; [exact Hn|].
  split.
  { intros Hnil. destruct (new_id_max df n Hn) as [[_ H1]|[Hne _]];
      [exact H1 | contradiction]. }
  split.
  { intros Hne. destruct (new_id_max df n Hn) as [[Hnil _]|[_ H]];
      [contradiction | exact H]. }
  split; [exact Hadd|].
  split; [exact Hid|].
  split; [exact Hdisk|].
  split; [apply new_id_fresh; exact Hn|].
  split.
  { rewrite present_ids_app, Hrow.
    apply NoDup_snoc; [exact Huniq | apply new_id_fresh; exact Hn]. }
  rewrite (present_ids_of_ids (read_frame _)).
  rewrite (reload_ids (df ++ [row]) n).
  - rewrite <- present_ids_of_ids, present_ids_app, Hrow. reflexivity.
  - rewrite map_app, in_app_iff. right. simpl. left. exact Hid.
Qed.

Lemma new_id_spec_witness :
  NoDup (present_ids (read_frame [negative_interval_csv]))
  /\ exists n row st',
       new_id (read_frame [negative_interval_csv]) = Some n
       /\ n = 2
       /\ add_form (read_frame [negative_interval_csv]) pump_input true empty_store
          = Some (st', [Success_added])
       /\ id row = Some n
       /\ NoDup (present_ids (read_frame [negative_interval_csv] ++ [row])).
Proof.
  assert (Hu : NoDup (present_ids (read_frame [negative_interval_csv]))).
  { vm_compute. constructor; [intros H; exact H | constructor]. }
  split; [exact Hu|].
  destruct (new_id_spec [negative_interval_csv] pump_input empty_store Hu)
    as [n [row [st' [Hn [_ [_ [Hadd [Hid [_ [_ [Hnd _]]]]]]]]]]].
  exists n, row, st'.
  split; [exact Hn|].
  split; [vm_compute in Hn; injection Hn as <-; reflexivity|].
  split; [exact Hadd|].
  split; [exact Hid | exact Hnd].
Defined.

(** C3. The Add operation is to require a non-empty name.  The code does
    not: on the table of one record, the form submitted with an empty name
    (a field the form labels as required) is not rejected.  It appends the
    record with the new id 2 and an empty name, writes the table and shows
    the success notice; no validation error is reported. *)
Theorem add_form_accepts_empty_name :
  in_name empty_name_input = EmptyString
  /\ exists st',
       add_form [scenario_row] empty_name_input true (store_of [scenario_row])
       = Some (st', [Success_added])
       /\ disk st'
          = Some (to_save ([scenario_row] ++ [new_row 2 empty_name_input]))
       /\ name (new_row 2 empty_name_input) = Some EmptyString
       /\ disk st' <> disk (store_of [scenario_row])
       /\ option_map (map csv_id) (disk st') = Some [Some 1; Some 2]
       /\ option_map (map csv_name) (disk st') = Some [Some "boiler"%string; None].
Proof.
  split; [reflexivity|].
  eexists. split; [reflexivity|].
  split; [reflexivity|].
  split; [reflexivity|].
  split; [discriminate|].
  split; reflexivity.
Qed.

(** ** Toggle-Archive *)

Section Toggle.

Lemma is_active_true (v : option string) :
  is_active v = true <-> v = Some "active"%string.
Proof.
  unfold is_active. destruct v as [s|].
  - rewrite String.eqb_eq. split; [intros ->; reflexivity | congruence].
  - split; discriminate.
Qed.

Lemma toggled_status_active (v : option string) :
  v = Some "active"%string -> toggled_status v = "archived"%string.
Proof. intros ->; reflexivity. Qed.

Lemma toggled_status_other (v : option string) :
  v <> Some "active"%string -> toggled_status v = "active"%string.
Proof.
  intros Hv. unfold toggled_status.
  destruct (is_active v) eqn:Ha; [|reflexivity].
  apply is_active_true in Ha. contradiction.
Qed.

Lemma toggled_status_enum (v : option string) :
  is_enum_status (Some (toggled_status v)).
Proof.
  unfold toggled_status, is_enum_status.
  destruct (is_active v); [right | left]; reflexivity.
Qed.

(** The assignment [df.loc[df["id"]==selected_id, "status"] = v]. *)
Lemma selected_row_assign (df : DataFrame) (sid : option Z) (v : option string) :
  selected_row
    (map (fun r => if id_is sid r then set_status r v else r) df) sid
  = option_map (fun r => set_status r v) (selected_row df sid).
Proof.
  unfold selected_row.
  induction df as [|r df IH]; [reflexivity|].
  simpl. destruct (id_is sid r) eqn:Hr.
  - assert (Hr' : id_is sid (set_status r v) = true) by exact Hr.
    rewrite Hr'. reflexivity.
  - rewrite Hr. exact IH.
Qed.

Lemma assign_In (df : DataFrame) (sid : option Z) (v : option string) (r : Row) :
  In r (map (fun r => if id_is sid r then set_status r v else r) df) ->
  (id_is sid r = true /\ status r = v)
  \/ (id_is sid r = false /\ In r df).
Proof.
  rewrite in_map_iff. intros [r0 [Hr0 Hin]].
  destruct (id_is sid r0) eqn:Hid; subst r.
  - left. split; [exact Hid | reflexivity].
  - right. split; assumption.
Qed.



Lemma id_is_present (sid : option Z) (r : Row) :
  id_is sid r = true -> exists i, sid = Some i /\ id r = Some i.
Proof.
  unfold id_is. destruct (id r) as [i|], sid as [j|]; try discriminate.
  rewrite Z.eqb_eq. intros ->. exists j; split; reflexivity.
Qed.


Lemma isin_In (v : option string) (values : list string) :
  isin v values = true <-> exists s, v = Some s /\ In s values.
Proof.
  unfold isin. destruct v as [s|].
  - rewrite existsb_exists. split.
    + intros [x [Hx Heq]]. apply String.eqb_eq in Heq. subst x.
      exists s. split; [reflexivity | exact Hx].
    + intros [s' [Hs Hin]]. injection Hs as <-.
      exists s. split; [exact Hin | apply String.eqb_refl].
  - split; [discriminate | intros [s [Hs _]]; discriminate].
Qed.

Lemma find_first (p : Row -> bool) (df : DataFrame) (r : Row) :
  In r df -> p r = true -> exists row, find p df = Some row /\ p row = true.
Proof.
  induction df as [|a df IH]; intros Hin Hp; [destruct Hin|].
  cbn [find]. destruct (p a) eqn:Ha.
  - exists a. split; [reflexivity | exact Ha].
  - destruct Hin as [->|Hin]; [congruence|].
    apply IH; assumption.
Qed.

(** With distinct ids, two rows of the frame with the same id are one
    row. *)
Lemma unique_id_row (df : DataFrame) (r1 r2 : Row) (i : Z) :
  NoDup (present_ids df) ->
  In r1 df -> In r2 df -> id r1 = Some i -> id r2 = Some i -> r1 = r2.
Proof.
  induction df as [|a df IH]; intros Hnd H1 H2 Hi1 Hi2; [destruct H1|].
  assert (Htail : NoDup (present_ids df)).
  { unfold present_ids in Hnd |- *. cbn [flat_map] in Hnd.
    apply NoDup_app_remove_l in Hnd. exact Hnd. }
  assert (Hfresh : forall r, In r df -> id r = Some i -> id a = Some i -> False).
  { intros r Hr Hri Hai.
    unfold present_ids in Hnd. cbn [flat_map] in Hnd. rewrite Hai in Hnd.
    cbn [app] in Hnd. inversion Hnd as [|? ? Hni _]; subst.
    apply Hni. apply (proj2 (present_ids_In df i)).
    rewrite <- Hri. apply in_map. exact Hr. }
  destruct H1 as [<-|H1], H2 as [<-|H2].
  - reflexivity.
  - exfalso. apply (Hfresh r2 H2 Hi2 Hi1).
  - exfalso. apply (Hfresh r1 H1 Hi1 Hi2).
  - apply IH; assumption.
Qed.

End Toggle.

(** C10. Toggle-Archive maps the status "active" to "archived" and every
    other status, a value outside the enum and a missing one included, to
    "active"; so after one Toggle-Archive the status of the targeted
    record, and of every row that carries its id, is one of the two enum
    values, and no other row is changed. *)
Theorem toggle_archive_status_map (df : DataFrame) (selected_id : option Z)
    (row : Row) (st : Store)
    (Hrow : selected_row df selected_id = Some row) :
  (status row = Some "active"%string ->
   toggled_status (status row) = "archived"%string)
  /\ (status row <> Some "active"%string ->
      toggled_status (status row) = "active"%string)
  /\ exists df1 st1,
       toggle_archive df selected_id st = Some (df1, st1, [Success_status_changed])
       /\ status_of df1 selected_id = Some (Some (toggled_status (status row)))
       /\ (forall s, status_of df1 selected_id = Some s -> is_enum_status s)
       /\ (forall r, In r df1 -> id_is selected_id r = true ->
             is_enum_status (status r))
       /\ (forall r, In r df1 -> id_is selected_id r = false -> In r df)
       /\ List.length df1 = List.length df
       /\ disk st1 = Some (to_save df1).
Proof.
  split; [apply toggled_status_active|].
  split; [apply toggled_status_other|].
  unfold toggle_archive. rewrite Hrow.
  eexists; eexists.
  split; [reflexivity|].
  assert (Hst : status_of
                  (map (fun r => if id_is selected_id r
                                 then set_status r (Some (toggled_status (status row)))
                                 else r) df) selected_id
                = Some (Some (toggled_status (status row)))).
  { unfold status_of. rewrite selected_row_assign, Hrow. reflexivity. }
  split; [exact Hst|].
  split.
  { intros s Hs. rewrite Hst in Hs. injection Hs as <-. apply toggled_status_enum. }
  split.
  { intros r Hin Hid. apply assign_In in Hin as [[_ Hs]|[Hid' _]].
    - rewrite Hs. apply toggled_status_enum.
    - congruence. }
  split.
  { intros r Hin Hid. apply assign_In in Hin as [[Hid' _]|[_ Hin]];
      [congruence | exact Hin]. }
  split; [apply length_map | reflexivity].
Qed.

Lemma toggle_archive_status_map_witness :
  selected_row [broken_row] (Some 1) = Some broken_row
  /\ toggled_status (status broken_row) = "active"%string
  /\ exists df1 st1,
       toggle_archive [broken_row] (Some 1) empty_store
       = Some (df1, st1, [Success_status_changed])
       /\ status_of df1 (Some 1) = Some (Some "active"%string).
Proof.
  split; [reflexivity|].
  destruct (toggle_archive_status_map [broken_row] (Some 1) broken_row
              empty_store eq_refl)
    as [_ [Hother [df1 [st1 [Htog [Hst _]]]]]].
  split; [apply Hother; discriminate|].
  exists df1, st1. split; [exact Htog | exact Hst].
Defined.




(** ** Record store: loading *)

Section Load.






End Load.



(** ** Aggregator *)

Section Aggregator.

Lemma count_key_keys (k : Timestamp) (acc : list (Timestamp * Z)) (x : Timestamp) :
  In x (map fst (count_key k acc)) <-> x = k \/ In x (map fst acc).
Proof.
  induction acc as [|[k' c] rest IH]; simpl.
  - split; [intros [H|[]]; left; symmetry; exact H
           | intros [H|[]]; left; symmetry; exact H].
  - destruct (Z.ltb_spec k k') as [Hlt|Hge]; simpl.
    + split; [intros [H|H]; [left; symmetry; exact H | right; exact H]
             | intros [H|H]; [left; symmetry; exact H | right; exact H]].
    + destruct (Z.eqb_spec k k') as [Heq|Hne]; simpl.
      * subst k'. split; [intros [H|H]; right; [left|right]; exact H
                         | intros [H|[H|H]];
                           [left; symmetry; exact H | left; exact H | right; exact H]].
      * rewrite IH.
        split; [intros [H|[H|H]]; [right; left; exact H | left; exact H
                                   | right; right; exact H]
               | intros [H|[H|H]]; [right; left; exact H | left; exact H
                                    | right; right; exact H]].
Qed.

Lemma count_key_ok (k : Timestamp) (acc : list (Timestamp * Z)) :
  counts_ok acc -> counts_ok (count_key k acc).
Proof.
  unfold counts_ok.
  induction acc as [|[k' c] rest IH]; intros [Hs Hp]; simpl.
  - split; repeat constructor.
  - simpl in Hs. inversion Hs as [|? ? Hsr Hlt]; subst.
    inversion Hp as [|? ? Hc Hpr]; subst. simpl in Hc.
    destruct (Z.ltb_spec k k') as [Hk|Hk]; simpl.
    + split.
      * constructor; [exact Hs|].
        constructor; [exact Hk|].
        eapply Forall_impl; [|exact Hlt]. intros y Hy; simpl in Hy; lia.
      * constructor; [simpl; lia | exact Hp].
    + destruct (Z.eqb_spec k k') as [Heq|Hne]; simpl.
      * split; [exact Hs|].
        constructor; [simpl; lia | exact Hpr].
      * destruct (IH (conj Hsr Hpr)) as [Hs' Hp'].
        split.
        -- constructor; [exact Hs'|].
           apply Forall_forall. intros y Hy.
           apply count_key_keys in Hy as [->|Hy]; [lia|].
           rewrite Forall_forall in Hlt. apply Hlt. exact Hy.
        -- constructor; [exact Hc | exact Hp'].
Qed.

Lemma tasks_of_absent (m : list (Timestamp * Z)) (k : Timestamp) :
  ~ In k (map fst m) -> tasks_of m k = 0.
Proof.
  induction m as [|[k' c] rest IH]; intros Hni; [reflexivity|].
  simpl in *. destruct (Z.eqb_spec k k') as [Heq|Hne].
  - exfalso; apply Hni; left; symmetry; exact Heq.
  - apply IH. intros H; apply Hni; right; exact H.
Qed.

Lemma tasks_of_count_key (k : Timestamp) (acc : list (Timestamp * Z))
    (x : Timestamp) :
  StronglySorted Z.lt (map fst acc) ->
  tasks_of (count_key k acc) x = tasks_of acc x + (if x =? k then 1 else 0).
Proof.
  induction acc as [|[k' c] rest IH]; intros Hs; simpl.
  - destruct (x =? k); reflexivity.
  - simpl in Hs. inversion Hs as [|? ? Hsr Hlt]; subst.
    destruct (Z.ltb_spec k k') as [Hk|Hk]; simpl.
    + destruct (Z.eqb_spec x k) as [Hxk|Hxk].
      * subst x. destruct (Z.eqb_spec k k') as [Heq|_]; [lia|].
        rewrite tasks_of_absent; [reflexivity|].
        intros Hin. rewrite Forall_forall in Hlt.
        specialize (Hlt k Hin). lia.
      * lia.
    + destruct (Z.eqb_spec k k') as [Heq|Hne]; simpl.
      * subst k'. destruct (x =? k); lia.
      * rewrite (IH Hsr).
        destruct (Z.eqb_spec x k') as [->|_]; [|reflexivity].
        destruct (Z.eqb_spec k' k) as [Heq|_]; [congruence | lia].
Qed.

Lemma tasks_of_In (m : list (Timestamp * Z)) (k : Timestamp) (c : Z) :
  counts_ok m ->
  (In (k, c) m <-> tasks_of m k = c /\ 0 < c).
Proof.
  unfold counts_ok.
  induction m as [|[k' c'] rest IH]; intros [Hs Hp]; simpl.
  - split; [intros [] | intros [H0 Hc]; lia].
  - simpl in Hs. inversion Hs as [|? ? Hsr Hlt]; subst.
    inversion Hp as [|? ? Hc' Hpr]; subst. simpl in Hc'.
    specialize (IH (conj Hsr Hpr)).
    destruct (Z.eqb_spec k k') as [->|Hne].
    + split.
      * intros [Heq|Hin].
        -- injection Heq as ->. split; [reflexivity | exact Hc'].
        -- exfalso. rewrite Forall_forall in Hlt.
           assert (Hk : In k' (map fst rest)).
           { apply in_map_iff. exists (k', c). split; [reflexivity | exact Hin]. }
           specialize (Hlt k' Hk). lia.
      * intros [-> _]. left; reflexivity.
    + rewrite <- IH. split.
      * intros [Heq|Hin]; [congruence | exact Hin].
      * intros Hin; right; exact Hin.
Qed.

Lemma groupby_fold (keys : list (option Timestamp)) (acc : list (Timestamp * Z)) :
  counts_ok acc ->
  let m := fold_left (fun acc k => match k with
                                   | Some k => count_key k acc
                                   | None => acc
                                   end) keys acc in
  counts_ok m /\ forall x, tasks_of m x = tasks_of acc x + key_count x keys.
Proof.
  revert acc. induction keys as [|k keys IH]; intros acc Hok; simpl.
  - split; [exact Hok | intros x; unfold key_count; simpl; lia].
  - destruct k as [k|].
    + destruct (IH (count_key k acc) (count_key_ok k acc Hok)) as [Hok' Hcnt].
      split; [exact Hok'|].
      intros x. rewrite Hcnt, tasks_of_count_key by (apply Hok).
      unfold key_count; simpl.
      rewrite (Z.eqb_sym k x).
      destruct (x =? k); simpl; lia.
    + destruct (IH acc Hok) as [Hok' Hcnt].
      split; [exact Hok'|].
      intros x. rewrite Hcnt. unfold key_count; simpl. reflexivity.
Qed.

Lemma groupby_size_spec (keys : list (option Timestamp)) :
  counts_ok (groupby_size keys)
  /\ forall k c, In (k, c) (groupby_size keys) <-> c = key_count k keys /\ 0 < c.
Proof.
  assert (Hnil : counts_ok []) by (split; constructor).
  destruct (groupby_fold keys [] Hnil) as [Hok Hcnt].
  fold (groupby_size keys) in Hok, Hcnt.
  split; [exact Hok|].
  intros k c. rewrite (tasks_of_In _ k c Hok), Hcnt. simpl.
  split; intros [H1 H2]; split; try assumption; lia.
Qed.

Lemma month_of_next (r : Row) (d : Timestamp) :
  next_service_date r = Some d -> month r = Some (month_start d).
Proof. intros H. unfold month. rewrite H. reflexivity. Qed.

Lemma month_Some_inv (r : Row) (m : Timestamp) :
  month r = Some m ->
  exists d, next_service_date r = Some d /\ month_start d = m.
Proof.
  unfold month. destruct (next_service_date r) as [d|]; cbn [option_map].
  - intros H. injection H as H. exists d. split; [reflexivity | exact H].
  - discriminate.
Qed.

Lemma month_notna (r : Row) : notna (next_service_date r) = notna (month r).
Proof. unfold month. destruct (next_service_date r); reflexivity. Qed.

Lemma chart_df_month (fl : DataFrame) :
  chart_df fl = filter (fun r => notna (month r)) fl.
Proof. unfold chart_df. apply filter_ext. intros r. apply month_notna. Qed.

Lemma key_count_month (k : Timestamp) (fl : DataFrame) :
  key_count k (map month fl) = tasks_due k fl.
Proof.
  unfold key_count, tasks_due. f_equal.
  induction fl as [|r fl IH]; [reflexivity|].
  cbn [map filter]. unfold due_in_month at 1.
  destruct (month r) as [m|]; [destruct (m =? k)|]; cbn [List.length];
    rewrite ?IH; reflexivity.
Qed.

(** Dropping the rows without a next date changes no month count. *)
Lemma tasks_due_chart_df (k : Timestamp) (fl : DataFrame) :
  tasks_due k (chart_df fl) = tasks_due k fl.
Proof.
  rewrite chart_df_month. unfold tasks_due. f_equal.
  induction fl as [|r fl IH]; [reflexivity|].
  cbn [filter].
  destruct (month r) as [m|] eqn:Hm; cbn [notna isnull negb].
  - cbn [filter]. destruct (due_in_month k r); cbn [List.length];
      rewrite IH; reflexivity.
  - unfold due_in_month at 2. rewrite Hm. exact IH.
Qed.

Lemma tasks_due_pos (k : Timestamp) (fl : DataFrame) :
  0 < tasks_due k fl <->
  exists r d, In r fl /\ next_service_date r = Some d /\ month_start d = k.
Proof.
  unfold tasks_due. split.
  - intros Hpos.
    destruct (filter (due_in_month k) fl) as [|r l] eqn:Hf;
      [cbn [List.length] in Hpos; lia|].
    assert (Hr : In r (filter (due_in_month k) fl)) by (rewrite Hf; left; reflexivity).
    apply filter_In in Hr as [Hin Hdue].
    unfold due_in_month in Hdue.
    destruct (month r) as [m|] eqn:Hm; [|discriminate].
    apply Z.eqb_eq in Hdue. subst m.
    destruct (month_Some_inv r k Hm) as [d [Hd Hk]].
    exists r, d. split; [exact Hin|]. split; [exact Hd | exact Hk].
  - intros [r [d [Hin [Hd Hk]]]].
    assert (Hr : In r (filter (due_in_month k) fl)).
    { apply filter_In. split; [exact Hin|].
      unfold due_in_month. rewrite (month_of_next r d Hd).
      apply Z.eqb_eq. exact Hk. }
    destruct (filter (due_in_month k) fl) as [|r' l];
      [destruct Hr | cbn [List.length]; lia].
Qed.

End Aggregator.

(** C8. The aggregator groups the records that have a next-service-date by
    the calendar month of that date, taken as the first day of the month:
    the series it gives has its months in strictly ascending (chronological)
    order, holds for a month exactly the number of records due in it, and
    has an entry for a month only when at least one record is due in it.
    Every key is midnight of day 1 of a calendar month, the month of the
    dates it counts.  Two records due in 2024-07 and one in 2024-09 give
    [{2024-07: 2, 2024-09: 1}] with no entry for 2024-08. *)
Theorem monthly_spec (fl : DataFrame) :
  let m := monthly (chart_df fl) in
  StronglySorted Z.lt (map fst m)
  /\ (forall k c, In (k, c) m <-> c = tasks_due k fl /\ 0 < c)
  /\ (forall k, In k (map fst m) <->
        exists r d, In r fl /\ next_service_date r = Some d
                    /\ k = month_start d)
  /\ (forall d, to_period_M (month_start d) = to_period_M d
                /\ ord2ymd (ts_date (month_start d))
                   = (fst (to_period_M d), snd (to_period_M d), 1)
                /\ month_start d = to_datetime (ts_date (month_start d))
                /\ month_start d <= d)
  /\ (chart fl = None <-> forall r, In r fl -> next_service_date r = None)
  /\ (forall s, chart fl = Some s -> s = m)
  /\ map (fun e => (to_period_M (fst e), snd e))
         (monthly (chart_df aggregator_scenario))
     = [((2024, 7), 2); ((2024, 9), 1)]
  /\ map fst (monthly (chart_df aggregator_scenario))
     = [to_datetime (ymd2ord 2024 7 1); to_datetime (ymd2ord 2024 9 1)].
Proof.
  intros m.
  destruct (groupby_size_spec (map month (chart_df fl))) as [[Hs _] Hin].
  fold (monthly (chart_df fl)) in Hs, Hin. fold m in Hs, Hin.
  assert (Hin' : forall k c, In (k, c) m <-> c = tasks_due k fl /\ 0 < c).
  { intros k c. rewrite Hin, key_count_month, tasks_due_chart_df. reflexivity. }
  split; [exact Hs|].
  split; [exact Hin'|].
  split.
  { intros k. split.
    - intros Hk. apply in_map_iff in Hk as [[k' c] [Hk Hkc]].
      cbn [fst] in Hk; subst k'.
      apply Hin' in Hkc as [Hc Hpos]. rewrite Hc in Hpos.
      apply tasks_due_pos in Hpos as [r [d [Hr [Hd Hm]]]].
      exists r, d. split; [exact Hr|]. split; [exact Hd | symmetry; exact Hm].
    - intros [r [d [Hr [Hd Hk]]]].
      apply in_map_iff. exists (k, tasks_due k fl). split; [reflexivity|].
      apply Hin'. split; [reflexivity|].
      apply tasks_due_pos. exists r, d.
      split; [exact Hr|]. split; [exact Hd | symmetry; exact Hk]. }
  split.
  { intros d. destruct (month_start_first d) as [H1 [H2 [_ [H3 H4]]]].
    split; [exact H1|]. split; [exact H2|]. split; [exact H3 | exact H4]. }
  split.
  { unfold chart. fold m. split.
    - intros Hnone r Hr.
      destruct (next_service_date r) as [d|] eqn:Hd; [|reflexivity].
      assert (Hc : In r (chart_df fl)).
      { unfold chart_df. apply filter_In. split; [exact Hr|]. rewrite Hd. reflexivity. }
      destruct (chart_df fl); [destruct Hc | discriminate].
    - intros Hall.
      assert (Hnil : chart_df fl = []).
      { unfold chart_df. apply filter_none. intros r Hr. rewrite (Hall r Hr). reflexivity. }
      rewrite Hnil. reflexivity. }
  split.
  { unfold chart. fold m. intros s Hs'.
    destruct (chart_df fl); [discriminate | injection Hs' as <-; reflexivity]. }
  split; vm_compute; reflexivity.
Qed.


(** * Further properties of the code *)

(** ** Persistence: what a save and a load do to a frame *)

Section Persistence.

Lemma map_combine_maps {A B C D : Type} (f : B * C -> D) (g : A -> B)
    (h : A -> C) (l : list A) :
  map f (combine (map g l) (map h l)) = map (fun x => f (g x, h x)) l.
Proof.
  induction l as [|a l IH]; [reflexivity|].
  cbn [map combine]. rewrite IH. reflexivity.
Qed.

Lemma to_save_not_idless (df : DataFrame) (i : Z) :
  In (Some i) (map id df) ->
  forallb (fun r => isnull (csv_id r)) (to_save df) = false.
Proof.
  intros Hi.
  destruct (forallb _ (to_save df)) eqn:Hall; [|reflexivity].
  exfalso.
  rewrite forallb_forall in Hall.
  rewrite <- to_save_ids in Hi.
  apply in_map_iff in Hi as [c [Hc Hin]].
  specialize (Hall c Hin). rewrite Hc in Hall. discriminate.
Qed.

Lemma read_frame_to_save (df : DataFrame) (i : Z) :
  In (Some i) (map id df) -> read_frame (to_save df) = map reloaded df.
Proof.
  intros Hi. unfold read_frame.
  rewrite (to_save_not_idless df i Hi), to_save_ids.
  unfold to_save.
  rewrite map_combine_maps.
  apply map_ext. intros r.
  unfold reloaded, interval_column. cbn [csv_id csv_name csv_model csv_serial
    csv_last_service_date csv_interval_days csv_consumables csv_notes
    csv_photo csv_status to_numeric_coerce fillna astype_int].
  rewrite Z.quot_1_r.
  destruct (last_service_date r); reflexivity.
Qed.

Lemma add_days_to_datetime (d : date) (n : Z) :
  add_days (to_datetime d) n = to_datetime (d + n).
Proof. unfold add_days, to_datetime. lia. Qed.

(** The next date of a reloaded row is midnight of the row's next date. *)
Lemma next_service_date_reloaded (r : Row) :
  next_service_date (reloaded r)
  = option_map (fun d => to_datetime (ts_date d)) (next_service_date r).
Proof.
  unfold next_service_date, reloaded.
  cbn [last_service_date interval_days].
  destruct (last_service_date r) as [t|]; cbn [option_map]; [|reflexivity].
  destruct (interval_days r <=? 0); cbn [option_map]; [reflexivity|].
  rewrite add_days_to_datetime, ts_date_add_days. reflexivity.
Qed.

Lemma map_id_assign (g : Row -> Row) (p : Row -> bool) (df : DataFrame) :
  (forall r, id (g r) = id r) ->
  map id (map (fun r => if p r then g r else r) df) = map id df.
Proof.
  intros Hg. rewrite map_map. apply map_ext. intros r.
  destruct (p r); [apply Hg | reflexivity].
Qed.

Lemma selected_row_In (df : DataFrame) (sid : option Z) (row : Row) :
  selected_row df sid = Some row ->
  In row df /\ exists i, sid = Some i /\ id row = Some i.
Proof.
  unfold selected_row. intros H.
  apply find_some in H as [Hin Hid].
  split; [exact Hin | apply id_is_present; exact Hid].
Qed.

Lemma due_day_reloaded (r : Row) :
  option_map ts_date (next_service_date (reloaded r))
  = option_map ts_date (next_service_date r).
Proof.
  rewrite next_service_date_reloaded.
  destruct (next_service_date r) as [d|]; cbn [option_map]; [|reflexivity].
  rewrite ts_date_to_datetime. reflexivity.
Qed.

Lemma filter_map_swap_rows (p : Row -> bool) (g : Row -> Row) (l : DataFrame) :
  filter p (map g l) = map g (filter (fun r => p (g r)) l).
Proof.
  induction l as [|a l IH]; [reflexivity|].
  cbn [map filter]. destruct (p (g a)); cbn [map]; rewrite IH; reflexivity.
Qed.

Lemma upcoming_reloaded (fl : DataFrame) (today H : Z) :
  upcoming (map reloaded fl) today H = map reloaded (upcoming fl today H).
Proof.
  unfold upcoming.
  rewrite (filter_map_swap_rows _ reloaded fl).
  rewrite (filter_map_swap_rows _ reloaded).
  f_equal.
  assert (H1 : filter (fun r => notna (next_service_date (reloaded r))) fl
               = filter (fun r => notna (next_service_date r)) fl).
  { apply filter_ext. intros r. rewrite next_service_date_reloaded.
    destruct (next_service_date r); reflexivity. }
  rewrite H1. apply filter_ext. intros r.
  rewrite next_service_date_reloaded.
  destruct (next_service_date r) as [d|]; cbn [option_map]; [|reflexivity].
  rewrite ts_date_to_datetime. reflexivity.
Qed.

Lemma overdue_reloaded (fl : DataFrame) (today : Z) :
  overdue (map reloaded fl) today = map reloaded (overdue fl today).
Proof.
  unfold overdue.
  rewrite (filter_map_swap_rows _ reloaded fl).
  rewrite (filter_map_swap_rows _ reloaded).
  f_equal.
  assert (H1 : filter (fun r => notna (next_service_date (reloaded r))) fl
               = filter (fun r => notna (next_service_date r)) fl).
  { apply filter_ext. intros r. rewrite next_service_date_reloaded.
    destruct (next_service_date r); reflexivity. }
  rewrite H1. apply filter_ext. intros r.
  rewrite next_service_date_reloaded.
  destruct (next_service_date r) as [d|]; cbn [option_map]; [|reflexivity].
  rewrite ts_date_to_datetime. reflexivity.
Qed.

End Persistence.

(** X1. Saving a frame and loading it again keeps the typed columns: the
    loaded frame has the same number of rows, the same ids and the same
    intervals in the same rows, and each last service date comes back as
    midnight of its day (absent stays absent).  The frame must hold an id
    (without one, load renumbers the rows). *)
Theorem load_after_save (df : DataFrame) (st : Store) (i : Z)
    (Hid : In (Some i) (map id df)) :
  let loaded := fst (load_data (save_data (to_save df) st)) in
  List.length loaded = List.length df
  /\ map id loaded = map id df
  /\ map interval_days loaded = map interval_days df
  /\ map last_service_date loaded
     = map (fun r => option_map (fun t => to_datetime (ts_date t))
                                (last_service_date r)) df.
Proof.
  intros loaded.
  assert (H : loaded = map reloaded df).
  { unfold loaded, load_data, save_data. cbn [cache disk fst].
    apply (read_frame_to_save df i Hid). }
  rewrite H.
  split; [apply length_map|].
  split; [|split]; rewrite map_map; reflexivity.
Qed.

Lemma load_after_save_witness :
  map last_service_date
      (fst (load_data (save_data (to_save [scenario_row; archived_row]) empty_store)))
  = [Some (to_datetime (ymd2ord 2024 1 1)); Some (to_datetime (ymd2ord 2024 1 1))].
Proof.
  destruct (load_after_save [scenario_row; archived_row] empty_store 1
              (or_introl eq_refl)) as [_ [_ [_ H]]].
  rewrite H. vm_compute. reflexivity.
Defined.

(** X2. A save and a load change no record's schedule as the views see it:
    row by row the loaded frame has a next-service-date exactly where the
    frame had one, on the same calendar day, so Upcoming and Overdue of the
    loaded frame have as many rows as those of the frame, for every today
    and horizon. *)
Theorem schedule_survives_reload (df : DataFrame) (st : Store) (i : Z)
    (Hid : In (Some i) (map id df)) :
  let loaded := fst (load_data (save_data (to_save df) st)) in
  map (fun r => option_map ts_date (next_service_date r)) loaded
  = map (fun r => option_map ts_date (next_service_date r)) df
  /\ (forall today H,
        List.length (upcoming loaded today H) = List.length (upcoming df today H))
  /\ (forall today,
        List.length (overdue loaded today) = List.length (overdue df today)).
Proof.
  intros loaded.
  assert (H : loaded = map reloaded df).
  { unfold loaded, load_data, save_data. cbn [cache disk fst].
    apply (read_frame_to_save df i Hid). }
  rewrite H.
  split.
  { rewrite map_map. apply map_ext. intros r. apply due_day_reloaded. }
  split.
  - intros today H0. rewrite upcoming_reloaded. apply length_map.
  - intros today. rewrite overdue_reloaded. apply length_map.
Qed.

Lemma schedule_survives_reload_witness :
  List.length
    (overdue (fst (load_data (save_data (to_save [scenario_row; overdue_row])
                                        empty_store)))
             (ymd2ord 2024 6 20))
  = 1%nat.
Proof.
  destruct (schedule_survives_reload [scenario_row; overdue_row] empty_store 1
              (or_introl eq_refl)) as [_ [_ H]].
  rewrite H. vm_compute. reflexivity.
Defined.

(** ** Views, counts and the edit tab's target *)

Section ViewFacts.

Lemma filter_length_le {A : Type} (f : A -> bool) (l : list A) :
  (List.length (filter f l) <= List.length l)%nat.
Proof.
  induction l as [|a l IH]; [apply Nat.le_refl|].
  cbn [filter]. destruct (f a); cbn [List.length]; lia.
Qed.

Lemma dated_views_length (fl : DataFrame) (today H : Z) :
  (List.length (upcoming fl today H) + List.length (overdue fl today)
   <= List.length (chart_df fl))%nat.
Proof.
  unfold upcoming, overdue, chart_df, date_add_days.
  induction fl as [|r fl IH]; [apply Nat.le_refl|].
  cbn [filter].
  destruct (next_service_date r) as [d|] eqn:Hd; cbn [notna isnull negb].
  - cbn [filter]. rewrite Hd.
    destruct (Z.leb_spec today (ts_date d)), (Z.leb_spec (ts_date d) (today + H)),
      (Z.ltb_spec (ts_date d) today); cbn [andb List.length]; lia.
  - exact IH.
Qed.

(** A missing id equals no id: the selection is empty. *)
Lemma selected_row_missing (df : DataFrame) : selected_row df None = None.
Proof.
  unfold selected_row. induction df as [|a df IH]; [reflexivity|].
  cbn [find]. assert (Ha : id_is None a = false).
  { unfold id_is. destruct (id a); reflexivity. }
  rewrite Ha. exact IH.
Qed.

End ViewFacts.

(** X3. The views read off the days-remaining column: a record is in
    Upcoming exactly when its [days_to_next] is present and between 0 and
    the horizon, and in Overdue exactly when it is present and negative. *)
Theorem views_by_days_to_next (fl : DataFrame) (today H : Z) (r : Row) :
  (In r (upcoming fl today H) <->
   In r fl /\ exists k, days_to_next today (next_service_date r) = Some k
                        /\ 0 <= k <= H)
  /\ (In r (overdue fl today) <->
      In r fl /\ exists k, days_to_next today (next_service_date r) = Some k
                           /\ k < 0).
Proof.
  rewrite upcoming_In, overdue_In. unfold days_to_next.
  split; split; intros [Hin Hex]; (split; [exact Hin|]).
  - destruct Hex as [d [Hd Hr]]. rewrite Hd.
    exists (ts_date d - today). split; [reflexivity | lia].
  - destruct Hex as [k [Hk Hr]].
    destruct (next_service_date r) as [d|]; [|discriminate].
    injection Hk as <-. exists d. split; [reflexivity | lia].
  - destruct Hex as [d [Hd Hr]]. rewrite Hd.
    exists (ts_date d - today). split; [reflexivity | lia].
  - destruct Hex as [k [Hk Hr]].
    destruct (next_service_date r) as [d|]; [|discriminate].
    injection Hk as <-. exists d. split; [reflexivity | lia].
Qed.

(** X4. The two metrics never count more than there is: Upcoming and
    Overdue together hold at most as many rows as the filtered view has
    rows with a schedule, which are at most the rows of the filtered view,
    which are at most the rows of the table. *)
Theorem view_counts {T : TextOps} (df : DataFrame) (status_filter : list string)
    (search : string) (today H : Z) :
  let base := filtered df status_filter search in
  (List.length (upcoming base today H) + List.length (overdue base today)
   <= List.length (chart_df base))%nat
  /\ (List.length (chart_df base) <= List.length base)%nat
  /\ (List.length base <= List.length df)%nat.
Proof.
  intros base.
  split; [apply dated_views_length|].
  split; [apply filter_length_le|].
  unfold base, filtered.
  destruct (nonempty search).
  - eapply Nat.le_trans; apply filter_length_le.
  - apply filter_length_le.
Qed.

(** X5. Every row of the filtered view has a status, and one the status
    filter lists; so a row with a missing status is in no view, an empty
    status filter gives an empty view, and with a filter chosen from the
    two options of the sidebar every row in view has an enum status. *)
Theorem filtered_status {T : TextOps} (df : DataFrame)
    (status_filter : list string) (search : string) :
  Forall (fun r => exists s, status r = Some s /\ In s status_filter)
         (filtered df status_filter search)
  /\ filtered df [] search = []
  /\ (incl status_filter STATUS_OPTIONS ->
      Forall (fun r => is_enum_status (status r))
             (filtered df status_filter search)).
Proof.
  assert (H : Forall (fun r => exists s, status r = Some s /\ In s status_filter)
                     (filtered df status_filter search)).
  { apply Forall_forall. intros r Hr.
    apply filtered_incl in Hr as [_ Hst]. apply isin_In. exact Hst. }
  split; [exact H|].
  split.
  { unfold filtered.
    assert (Hnil : filter (fun r => isin (status r) []) df = []).
    { apply filter_none. intros r _. unfold isin. destruct (status r); reflexivity. }
    rewrite Hnil. destruct (nonempty search); reflexivity. }
  intros Hincl. eapply Forall_impl; [|exact H].
  intros r [s [Hs Hin]]. apply Hincl in Hin.
  unfold is_enum_status. rewrite Hs.
  destruct Hin as [<-|[<-|[]]]; [left | right]; reflexivity.
Qed.

(** X6. An id that is not missing, taken from a row of the filtered view,
    selects a row of the table with that id: line 178 does not raise.  It
    is the first row of the table with that id; when the ids of the table
    are distinct it is that row of the view, so with a status filter from
    the sidebar options its status is one of the two enum values.  A
    missing id, which a row of the view can carry and the selectbox then
    offers, selects no row: line 178 raises. *)
Theorem edit_target {T : TextOps} (df : DataFrame) (status_filter : list string)
    (search : string) (r : Row) (i : Z)
    (Hview : In r (filtered df status_filter search))
    (Hid : id r = Some i) :
  (exists row,
      selected_row df (Some i) = Some row
      /\ In row df
      /\ id row = Some i
      /\ (NoDup (present_ids df) -> row = r)
      /\ (NoDup (present_ids df) -> incl status_filter STATUS_OPTIONS ->
          is_enum_status (status row)))
  /\ selected_row df None = None
  /\ (forall r', In r' (filtered df status_filter search) -> id r' = None ->
                 In (id r') (map id (filtered df status_filter search))
                 /\ selected_row df (id r') = None).
Proof.
  pose proof (selected_row_missing df) as Hnone.
  split; [|split; [exact Hnone|]].
  2:{ intros r' Hr' Hnull. split; [apply in_map; exact Hr'|].
      rewrite Hnull. exact Hnone. }
  pose proof (filtered_incl df status_filter search r Hview) as [Hin _].
  assert (Hp : id_is (Some i) r = true).
  { unfold id_is. rewrite Hid. apply Z.eqb_refl. }
  destruct (find_first (id_is (Some i)) df r Hin Hp) as [row [Hfind Hrow]].
  assert (Hsel : selected_row df (Some i) = Some row) by exact Hfind.
  destruct (selected_row_In df (Some i) row Hsel) as [Hrin [j0 [Hj Hrid]]].
  injection Hj as <-.
  assert (Huniq : NoDup (present_ids df) -> row = r).
  { intros Hnd. apply (unique_id_row df row r i); assumption. }
  exists row.
  split; [exact Hsel|].
  split; [exact Hrin|].
  split; [exact Hrid|].
  split; [exact Huniq|].
  intros Hnd Hincl. rewrite (Huniq Hnd).
  apply filtered_incl in Hview as [_ Hst].
  apply isin_In in Hst as [s0 [Hs0 Hin0]]. apply Hincl in Hin0.
  unfold is_enum_status. rewrite Hs0.
  destruct Hin0 as [<-|[<-|[]]]; [left | right]; reflexivity.
Qed.

Lemma edit_target_witness :
  In scenario_row
     (filtered (T := ascii_text_ops) [archived_row; scenario_row]
               ["active"%string] "BOIL")
  /\ exists row,
       selected_row [archived_row; scenario_row] (Some 1) = Some row
       /\ row = archived_row.
Proof.
  assert (Hv : In scenario_row
                 (filtered (T := ascii_text_ops) [archived_row; scenario_row]
                           ["active"%string] "BOIL")).
  { vm_compute. left. reflexivity. }
  split; [exact Hv|].
  destruct (edit_target (T := ascii_text_ops) [archived_row; scenario_row]
              ["active"%string] "BOIL" scenario_row 1 Hv eq_refl)
    as [[row [Hsel _]] _].
  exists row. split; [exact Hsel|].
  vm_compute in Hsel. injection Hsel as <-. reflexivity.
Defined.

(** ** The handlers of the edit tab *)

Section EditTab.

Lemma assign_rows (g : Row -> Row) (sid : option Z) (df : DataFrame) (r : Row) :
  In r (map (fun r => if id_is sid r then g r else r) df) ->
  (exists r0, In r0 df /\ id_is sid r0 = true /\ r = g r0)
  \/ (In r df /\ id_is sid r = false).
Proof.
  rewrite in_map_iff. intros [r0 [Hr0 Hin]].
  destruct (id_is sid r0) eqn:Hid.
  - left. exists r0. split; [exact Hin|]. split; [exact Hid | symmetry; exact Hr0].
  - right. subst r. split; assumption.
Qed.

Lemma new_id_by_ids (df1 df2 : DataFrame) :
  map id df1 = map id df2 -> new_id df1 = new_id df2.
Proof.
  intros H. unfold new_id.
  destruct df1 as [|a l1], df2 as [|b l2]; try discriminate; [reflexivity|].
  rewrite H. reflexivity.
Qed.

Lemma present_ids_by_ids (df1 df2 : DataFrame) :
  map id df1 = map id df2 -> present_ids df1 = present_ids df2.
Proof. intros H. rewrite !present_ids_of_ids, H. reflexivity. Qed.

(** An assignment to the rows with the selected id that keeps the id
    keeps the target of the selection. *)
Lemma selected_row_map (g : Row -> Row) (sid : option Z) (df : DataFrame) :
  (forall r, id_is sid (g r) = id_is sid r) ->
  selected_row (map (fun r => if id_is sid r then g r else r) df) sid
  = option_map g (selected_row df sid).
Proof.
  intros Hg. unfold selected_row.
  induction df as [|a df IH]; [reflexivity|].
  cbn [map find]. destruct (id_is sid a) eqn:Ha.
  - rewrite Hg, Ha. reflexivity.
  - rewrite Ha. exact IH.
Qed.

End EditTab.

(** X7. Mark-Serviced sets the last service of every row with the
    selected id to midnight of today, leaves the other rows as they are and
    persists the table.  For a marked record the schedule calculator then
    returns a date exactly when the interval is positive and the date
    types hold today plus the interval; that date is [interval_days] days
    after today, so the record is due in exactly [interval_days] days and
    is not overdue.  With an interval of 0 or less it returns the absent
    value. *)
Theorem mark_serviced_effect {R : TimestampRange} (df : DataFrame)
    (selected_id : option Z) (today : date) (st : Store) (row : Row)
    (Hrow : selected_row df selected_id = Some row) :
  exists df1 st1,
    mark_serviced df selected_id today st
    = Some (df1, st1, [Success_date_updated])
    /\ Forall (fun r =>
                 id_is selected_id r = true ->
                 last_service_date r = Some (to_datetime today)
                 /\ (interval_days r <= 0 ->
                     next_service_date_checked r = Returned None)
                 /\ (0 < interval_days r <= TIMEDELTA_MAX_DAYS ->
                     addable (to_datetime today) (interval_days r) = true ->
                     next_service_date_checked r
                     = Returned (Some (add_days (to_datetime today)
                                                (interval_days r))))
                 /\ (forall d,
                       next_service_date_checked r = Returned (Some d) ->
                       ts_date d = date_add_days today (interval_days r)
                       /\ days_to_next today (Some d) = Some (interval_days r)
                       /\ 0 < interval_days r
                       /\ ~ In r (overdue df1 today)))
              df1
    /\ Forall (fun r => id_is selected_id r = false -> In r df) df1
    /\ option_map last_service_date (selected_row df1 selected_id)
       = Some (Some (to_datetime today))
    /\ disk st1 = Some (to_save df1)
    /\ cache st1 = None.
Proof.
  unfold mark_serviced. rewrite Hrow.
  set (g := fun r => set_last_service_date r (Some (to_datetime today))).
  set (df1 := map (fun r => if id_is selected_id r then g r else r) df).
  exists df1, (save_data (to_save df1) st).
  split; [reflexivity|].
  split.
  { apply Forall_forall. intros r Hin Hid.
    apply assign_rows in Hin as [[r0 [_ [_ Hr]]]|[_ Hno]]; [|congruence].
    assert (Hlast : last_service_date r = Some (to_datetime today))
      by (subst r; reflexivity).
    split; [exact Hlast|].
    split.
    { intros Hle. unfold next_service_date_checked. rewrite Hlast.
      destruct (Z.leb_spec (interval_days r) 0); [reflexivity | lia]. }
    split.
    { intros Hpos Hadd. unfold next_service_date_checked, timedelta, timestamp_add.
      rewrite Hlast.
      destruct (Z.leb_spec (interval_days r) 0); [lia|].
      rewrite Z.abs_eq by lia.
      destruct (Z.leb_spec (interval_days r) TIMEDELTA_MAX_DAYS); [|lia].
      rewrite Hadd. reflexivity. }
    intros d Hd.
    assert (Hd' : 0 < interval_days r
                  /\ d = add_days (to_datetime today) (interval_days r)).
    { unfold next_service_date_checked, timedelta, timestamp_add in Hd.
      rewrite Hlast in Hd.
      destruct (Z.leb_spec (interval_days r) 0); [discriminate|].
      destruct (Z.abs (interval_days r) <=? TIMEDELTA_MAX_DAYS); [|discriminate].
      destruct (addable (to_datetime today) (interval_days r)); [|discriminate].
      injection Hd as <-. split; [lia | reflexivity]. }
    destruct Hd' as [Hpos ->].
    assert (Hday : ts_date (add_days (to_datetime today) (interval_days r))
                   = today + interval_days r)
      by (rewrite ts_date_add_days, ts_date_to_datetime; reflexivity).
    split; [exact Hday|].
    split; [unfold days_to_next; rewrite Hday; f_equal; lia|].
    split; [exact Hpos|].
    intros Hov. apply overdue_In in Hov as [_ [d' [Hd' Hlt]]].
    unfold next_service_date in Hd'. rewrite Hlast in Hd'.
    destruct (Z.leb_spec (interval_days r) 0); [discriminate|].
    injection Hd' as <-. rewrite Hday in Hlt. lia. }
  split.
  { apply Forall_forall. intros r Hin Hid.
    apply assign_rows in Hin as [[r0 [_ [Hid0 Hr]]]|[Hin _]]; [|exact Hin].
    subst r. assert (Hg : id_is selected_id (g r0) = id_is selected_id r0)
      by reflexivity.
    congruence. }
  split.
  { unfold df1. rewrite (selected_row_map g selected_id df), Hrow;
      [reflexivity | intros r; reflexivity]. }
  split; reflexivity.
Qed.

Lemma mark_serviced_effect_witness :
  In overdue_row (overdue [scenario_row; overdue_row] (ymd2ord 2024 6 20))
  /\ exists df1 st1,
       mark_serviced [scenario_row; overdue_row] (Some 7) (ymd2ord 2024 6 20)
                     (store_of [scenario_row; overdue_row])
       = Some (df1, st1, [Success_date_updated])
       /\ option_map last_service_date (selected_row df1 (Some 7))
          = Some (Some (to_datetime (ymd2ord 2024 6 20))).
Proof.
  split; [vm_compute; left; reflexivity|].
  destruct (mark_serviced_effect (R := ns_range) [scenario_row; overdue_row]
              (Some 7) (ymd2ord 2024 6 20)
              (store_of [scenario_row; overdue_row]) overdue_row eq_refl)
    as [df1 [st1 [Hm [_ [_ [Hsel _]]]]]].
  exists df1, st1. split; [exact Hm | exact Hsel].
Defined.

Section Handlers.

Lemma keeps_ids_assign (g : Row -> Row) (sid : option Z) (df : DataFrame) :
  (forall r, id (g r) = id r) ->
  keeps_ids df (map (fun r => if id_is sid r then g r else r) df).
Proof.
  intros Hg.
  assert (Hids : map id (map (fun r => if id_is sid r then g r else r) df)
                 = map id df) by (apply map_id_assign; exact Hg).
  unfold keeps_ids.
  split; [exact Hids|].
  split; [apply length_map|].
  split; [apply new_id_by_ids; exact Hids|].
  intros Hnd. rewrite (present_ids_by_ids _ _ Hids). exact Hnd.
Qed.

Lemma selected_row_reloaded (df : DataFrame) (sid : option Z) :
  selected_row (map reloaded df) sid = option_map reloaded (selected_row df sid).
Proof.
  unfold selected_row.
  induction df as [|a df IH]; [reflexivity|].
  cbn [map find].
  assert (Ha : id_is sid (reloaded a) = id_is sid a) by reflexivity.
  rewrite Ha. destruct (id_is sid a); [reflexivity | exact IH].
Qed.

Lemma map_id_reloaded (df : DataFrame) : map id (map reloaded df) = map id df.
Proof. rewrite map_map. reflexivity. Qed.

Lemma load_saved_frame (df1 : DataFrame) (st : Store) (i : Z) :
  In (Some i) (map id df1) ->
  fst (load_data (save_data (to_save df1) st)) = map reloaded df1.
Proof.
  intros Hi. unfold load_data, save_data. cbn [cache disk fst].
  apply (read_frame_to_save df1 i Hi).
Qed.

End Handlers.

(** X8. Toggle-Archive, Mark-Serviced and Edit never touch the id column
    or the number of rows: after each of them the table has the same ids in
    the same rows, so the id the next Add assigns is the same and distinct
    ids stay distinct. *)
Theorem handlers_keep_ids (df : DataFrame) (selected_id : option Z)
    (today : date) (e : EditInput) (submitted_e : bool) (st : Store) :
  (forall df1 st1 ns,
      toggle_archive df selected_id st = Some (df1, st1, ns) -> keeps_ids df df1)
  /\ (forall df1 st1 ns,
        mark_serviced df selected_id today st = Some (df1, st1, ns) ->
        keeps_ids df df1)
  /\ (forall df1 st1 ns,
        edit_form df selected_id e submitted_e st = Some (df1, st1, ns) ->
        keeps_ids df df1).
Proof.
  split; [|split]; intros df1 st1 ns H.
  - unfold toggle_archive in H.
    destruct (selected_row df selected_id) as [row|]; [|discriminate].
    injection H as <- _ _. apply keeps_ids_assign. intros r; reflexivity.
  - unfold mark_serviced in H.
    destruct (selected_row df selected_id) as [row|]; [|discriminate].
    injection H as <- _ _. apply keeps_ids_assign. intros r; reflexivity.
  - unfold edit_form in H.
    destruct (selected_row df selected_id) as [row|]; [|discriminate].
    destruct submitted_e; injection H as <- _ _.
    + apply keeps_ids_assign. intros r; reflexivity.
    + unfold keeps_ids. repeat split. intros Hnd; exact Hnd.
Qed.

(** X9. The edit form is shown for the selected record only when its
    stored interval is not negative (the number field of line 202 rejects a
    negative value): otherwise the tab raises and nothing is written.  When
    it is shown and submitted, every row with the selected id gets the
    eight submitted values and keeps its id and photo, the rows with
    another id are unchanged, and the table is persisted; when it is not
    submitted nothing changes. *)
Theorem edit_form_overwrites (df : DataFrame) (selected_id : option Z)
    (e : EditInput) (st : Store) (row : Row)
    (Hrow : selected_row df selected_id = Some row) :
  (interval_days row < 0 ->
   forall submitted_e, edit_form_checked df selected_id e submitted_e st = None)
  /\ (0 <= interval_days row ->
      exists df1 st1,
        edit_form_checked df selected_id e true st
        = Some (df1, st1, [Success_saved])
        /\ Forall (fun r =>
                     id_is selected_id r = true ->
                     exists r0, In r0 df /\ id_is selected_id r0 = true
                                /\ r = set_edited r0 e
                                /\ id r = id r0 /\ photo r = photo r0
                                /\ name r = Some (name_e e)
                                /\ status r = Some (status_e e)
                                /\ interval_days r = interval_days_e e
                                /\ last_service_date r
                                   = Some (to_datetime (last_service_e e)))
                  df1
        /\ Forall (fun r => id_is selected_id r = false -> In r df) df1
        /\ selected_row df1 selected_id = Some (set_edited row e)
        /\ disk st1 = Some (to_save df1)
        /\ edit_form_checked df selected_id e false st = Some (df, st, [])).
Proof.
  unfold edit_form_checked, interval_field_builds, edit_form. rewrite Hrow.
  split.
  { intros Hneg sub. destruct (Z.leb_spec 0 (interval_days row)); [lia | reflexivity]. }
  intros Hpos. destruct (Z.leb_spec 0 (interval_days row)); [|lia].
  set (df1 := map (fun r => if id_is selected_id r then set_edited r e else r) df).
  exists df1, (save_data (to_save df1) st).
  split; [reflexivity|].
  split.
  { apply Forall_forall. intros r Hin Hid.
    apply assign_rows in Hin as [[r0 [Hin0 [Hid0 Hr]]]|[_ Hno]]; [|congruence].
    exists r0. subst r. repeat (split; [first [assumption | reflexivity]|]).
    reflexivity. }
  split.
  { apply Forall_forall. intros r Hin Hid.
    apply assign_rows in Hin as [[r0 [_ [Hid0 Hr]]]|[Hin _]]; [|exact Hin].
    subst r.
    assert (Hg : id_is selected_id (set_edited r0 e) = id_is selected_id r0)
      by reflexivity.
    congruence. }
  split.
  { unfold df1.
    rewrite (selected_row_map (fun r => set_edited r e) selected_id df), Hrow;
      [reflexivity | intros r; reflexivity]. }
  split; reflexivity.
Qed.

Lemma edit_form_overwrites_witness :
  In scenario_row
     (filtered (T := ascii_text_ops) [scenario_row; overdue_row]
               ["active"%string] "")
  /\ exists df1 st1,
       edit_form_checked [scenario_row; overdue_row] (Some 1) repair_input true
                         (store_of [scenario_row; overdue_row])
       = Some (df1, st1, [Success_saved])
       /\ selected_row df1 (Some 1) = Some (set_edited scenario_row repair_input).
Proof.
  split; [vm_compute; left; reflexivity|].
  destruct (edit_form_overwrites [scenario_row; overdue_row] (Some 1) repair_input
              (store_of [scenario_row; overdue_row]) scenario_row eq_refl)
    as [_ H].
  destruct H as [df1 [st1 [He [_ [_ [Hsel _]]]]]].
  - vm_compute. discriminate.
  - exists df1, st1. split; [exact He | exact Hsel].
Defined.

(** X10. A change of the edit tab is there on the next run: in the frame
    loaded after Toggle-Archive the targeted record has the toggled status,
    and in the frame loaded after Mark-Serviced it has midnight of today as
    its last service date; the loaded frame has the rows and ids of the
    changed one. *)
Theorem mutation_survives_reload (df : DataFrame) (selected_id : option Z)
    (today : date) (st : Store) (row : Row)
    (Hrow : selected_row df selected_id = Some row) :
  (exists df1 st1,
      toggle_archive df selected_id st = Some (df1, st1, [Success_status_changed])
      /\ map id (fst (load_data st1)) = map id df
      /\ status_of (fst (load_data st1)) selected_id
         = Some (Some (toggled_status (status row))))
  /\ (exists df1 st1,
        mark_serviced df selected_id today st
        = Some (df1, st1, [Success_date_updated])
        /\ map id (fst (load_data st1)) = map id df
        /\ option_map last_service_date
             (selected_row (fst (load_data st1)) selected_id)
           = Some (Some (to_datetime today))).
Proof.
  destruct (selected_row_In df selected_id row Hrow) as [Hin [i [Hs Hi]]].
  assert (Hids : forall g, (forall r, id (g r) = id r) ->
                 In (Some i)
                    (map id (map (fun r => if id_is selected_id r then g r else r) df))).
  { intros g Hg. rewrite (map_id_assign g (id_is selected_id) df Hg).
    rewrite <- Hi. apply in_map. exact Hin. }
  split.
  - unfold toggle_archive. rewrite Hrow.
    eexists; eexists. split; [reflexivity|].
    rewrite (load_saved_frame _ st i
               (Hids (fun r => set_status r (Some (toggled_status (status row))))
                     (fun r => eq_refl))).
    split.
    { rewrite map_id_reloaded. apply map_id_assign. intros r; reflexivity. }
    unfold status_of.
    rewrite selected_row_reloaded, selected_row_assign, Hrow.
    cbn [option_map reloaded set_status status csv_text].
    unfold toggled_status. destruct (is_active (status row)); reflexivity.
  - unfold mark_serviced. rewrite Hrow.
    eexists; eexists. split; [reflexivity|].
    rewrite (load_saved_frame _ st i
               (Hids (fun r => set_last_service_date r (Some (to_datetime today)))
                     (fun r => eq_refl))).
    split.
    { rewrite map_id_reloaded. apply map_id_assign. intros r; reflexivity. }
    rewrite selected_row_reloaded.
    rewrite (selected_row_map
               (fun r => set_last_service_date r (Some (to_datetime today)))
               selected_id df), Hrow by (intros r; reflexivity).
    cbn [option_map reloaded set_last_service_date last_service_date].
    rewrite ts_date_to_datetime. reflexivity.
Qed.

Lemma mutation_survives_reload_witness :
  exists df1 st1,
    toggle_archive [scenario_row] (Some 1) empty_store
    = Some (df1, st1, [Success_status_changed])
    /\ status_of (fst (load_data st1)) (Some 1) = Some (Some "archived"%string).
Proof.
  destruct (mutation_survives_reload [scenario_row] (Some 1) (ymd2ord 2024 6 20)
              empty_store scenario_row eq_refl)
    as [[df1 [st1 [Ht [_ Hst]]]] _].
  exists df1, st1. split; [exact Ht | exact Hst].
Defined.

(** ** Calendar text *)

Section IcsText.

Lemma ics_escape_both (text : string) : ics_escape text = escape_both text.
Proof.
  unfold ics_escape.
  induction text as [|a rest IH]; [reflexivity|].
  cbn [replace_escaped escape_both]. unfold is_special.
  destruct (Ascii.eqb_spec a ",") as [->|Hc].
  - cbn [replace_escaped orb].
    change (Ascii.eqb backslash ";") with false.
    change (Ascii.eqb "," ";") with false.
    cbv iota. rewrite IH. reflexivity.
  - cbn [replace_escaped orb].
    destruct (Ascii.eqb_spec a ";") as [->|Hs]; rewrite IH; reflexivity.
Qed.

Lemma escaped_both (prev : bool) (text : string) :
  escaped_from prev (escape_both text) = true.
Proof.
  revert prev. induction text as [|a rest IH]; intros prev; [reflexivity|].
  cbn [escape_both]. destruct (is_special a) eqn:Ha.
  - cbn [escaped_from].
    change (is_special backslash) with false.
    change (Ascii.eqb backslash backslash) with true.
    rewrite Ha. cbv iota. rewrite IH. reflexivity.
  - cbn [escaped_from]. rewrite Ha, IH. reflexivity.
Qed.

Lemma length_escape_both (text : string) :
  String.length (escape_both text) = (String.length text + specials text)%nat.
Proof.
  induction text as [|a rest IH]; [reflexivity|].
  cbn [escape_both specials]. destruct (is_special a);
    cbn [String.length]; rewrite IH; lia.
Qed.

Lemma escape_both_plain (text : string) :
  specials text = O -> escape_both text = text.
Proof.
  induction text as [|a rest IH]; [reflexivity|].
  cbn [escape_both specials]. destruct (is_special a); [discriminate|].
  intros H. rewrite IH by exact H. reflexivity.
Qed.

Lemma escape_both_app (s1 s2 : string) :
  escape_both (s1 ++ s2) = (escape_both s1 ++ escape_both s2)%string.
Proof.
  induction s1 as [|a rest IH]; [reflexivity|].
  cbn [String.append escape_both]. destruct (is_special a);
    cbn [String.append]; rewrite IH; reflexivity.
Qed.

Lemma special_not_backslash (a : ascii) :
  is_special a = true -> Ascii.eqb a backslash = false.
Proof.
  unfold is_special. intros H. apply orb_true_iff in H as [H|H];
    apply Ascii.eqb_eq in H; subst a; reflexivity.
Qed.

(** The escaped text never starts with a bare comma or semicolon. *)
Lemma escape_both_head (text : string) :
  match escape_both text with
  | String b _ => is_special b = false
  | EmptyString => True
  end.
Proof.
  destruct text as [|a rest]; [exact I|].
  cbn [escape_both]. destruct (is_special a) eqn:Ha; [reflexivity | exact Ha].
Qed.

Lemma unescape_cons (a : ascii) (s : string) :
  match s with
  | String b _ => Ascii.eqb a backslash && is_special b = false
  | EmptyString => True
  end ->
  unescape (String a s) = String a (unescape s).
Proof.
  destruct s as [|b s']; intros H; [reflexivity|].
  cbn [unescape] in *. rewrite H. reflexivity.
Qed.

Lemma unescape_drop (b : ascii) (s : string) :
  is_special b = true ->
  unescape (String backslash (String b s)) = unescape (String b s).
Proof.
  intros H. destruct s as [|c s']; cbn [unescape];
    change (Ascii.eqb backslash backslash) with true; rewrite H; reflexivity.
Qed.

Lemma unescape_escape_both (text : string) : unescape (escape_both text) = text.
Proof.
  induction text as [|a rest IH]; [reflexivity|].
  cbn [escape_both]. destruct (is_special a) eqn:Ha.
  - rewrite (unescape_drop a _ Ha).
    rewrite unescape_cons, IH; [reflexivity|].
    rewrite (special_not_backslash a Ha).
    destruct (escape_both rest); [exact I | reflexivity].
  - rewrite unescape_cons, IH; [reflexivity|].
    pose proof (escape_both_head rest) as Hh.
    destruct (escape_both rest) as [|b s']; [exact I|].
    rewrite Hh. apply andb_false_r.
Qed.

End IcsText.

(** X11. [ics_escape] puts a backslash right before every comma and every
    semicolon of the text and adds nothing else: the result is longer by
    the number of commas and semicolons, a text without them is unchanged
    (a line break or a backslash in it included), and escaping a
    concatenation is concatenating the escaped parts. *)
Theorem ics_escape_spec (text rest : string) :
  escaped_from false (ics_escape text) = true
  /\ String.length (ics_escape text)
     = (String.length text + specials text)%nat
  /\ (specials text = O <-> ics_escape text = text)
  /\ ics_escape (text ++ rest) = (ics_escape text ++ ics_escape rest)%string.
Proof.
  rewrite !ics_escape_both.
  split; [apply escaped_both|].
  split; [apply length_escape_both|].
  split; [|apply escape_both_app].
  split; [apply escape_both_plain|].
  intros H. pose proof (length_escape_both text) as Hl.
  rewrite H in Hl. lia.
Qed.

(** X12. [ics_escape] loses nothing: dropping the backslash before each
    comma and semicolon gives the text back, so two texts with the same
    escaped form are the same text. *)
Theorem ics_escape_lossless (text : string) :
  unescape (ics_escape text) = text
  /\ forall other, ics_escape text = ics_escape other -> text = other.
Proof.
  split.
  - rewrite ics_escape_both. apply unescape_escape_both.
  - intros other H.
    rewrite !ics_escape_both in H.
    rewrite <- (unescape_escape_both text), <- (unescape_escape_both other), H.
    reflexivity.
Qed.

(** ** Export events, chart totals, load numbering, blank names *)

Section MoreFacts.

Lemma total_count_key (k : Timestamp) (acc : list (Timestamp * Z)) :
  total_tasks (count_key k acc) = total_tasks acc + 1.
Proof.
  unfold total_tasks.
  induction acc as [|[k' c] rest IH]; [reflexivity|].
  cbn [count_key]. destruct (k <? k'); [cbn [fold_right snd]; lia|].
  destruct (k =? k'); cbn [fold_right snd]; [lia|].
  rewrite IH. lia.
Qed.

Lemma total_groupby (keys : list (option Timestamp)) (acc : list (Timestamp * Z)) :
  total_tasks (fold_left (fun acc k => match k with
                                       | Some k => count_key k acc
                                       | None => acc
                                       end) keys acc)
  = total_tasks acc + Z.of_nat (List.length (filter notna keys)).
Proof.
  revert acc. induction keys as [|k keys IH]; intros acc.
  - cbn [fold_left filter List.length]. lia.
  - cbn [fold_left filter]. destruct k as [k|]; cbn [notna isnull negb].
    + rewrite IH, total_count_key. cbn [List.length]. lia.
    + apply IH.
Qed.

Lemma chart_df_months (fl : DataFrame) :
  List.length (filter notna (map month (chart_df fl))) = List.length (chart_df fl).
Proof.
  rewrite chart_df_month.
  induction fl as [|r fl IH]; [reflexivity|].
  cbn [filter]. destruct (notna (month r)) eqn:Hm; [|exact IH].
  cbn [map filter]. rewrite Hm. cbn [List.length]. rewrite IH. reflexivity.
Qed.

Lemma NoDup_map_inj {A B : Type} (f : A -> B) (l : list A) :
  (forall x y, f x = f y -> x = y) -> NoDup l -> NoDup (map f l).
Proof.
  intros Hinj. induction 1 as [|a l Hni _ IH]; cbn [map]; constructor.
  - intros Hin. apply in_map_iff in Hin as [x [Hx Hin]].
    apply Hinj in Hx. subst x. exact (Hni Hin).
  - exact IH.
Qed.

Lemma range_In (lo : Z) (n : nat) (x : Z) :
  In x (range lo n) <-> lo <= x < lo + Z.of_nat n.
Proof.
  unfold range. rewrite in_map_iff. split.
  - intros [k [Hk Hin]]. apply in_seq in Hin. lia.
  - intros Hx. exists (Z.to_nat (x - lo)). split; [lia|].
    apply in_seq. lia.
Qed.

Lemma range_NoDup (lo : Z) (n : nat) : NoDup (range lo n).
Proof.
  unfold range. apply NoDup_map_inj; [intros x y H; lia | apply seq_NoDup].
Qed.

Lemma present_ids_Some (df : DataFrame) (l : list Z) :
  map id df = map Some l -> present_ids df = l.
Proof.
  intros H. rewrite present_ids_of_ids, H. clear H.
  induction l as [|a l IH]; [reflexivity|].
  cbn [map flat_map app]. rewrite IH. reflexivity.
Qed.

Lemma lstrip_blank_upto (n : nat) (s : string) :
  (String.length s <= n)%nat -> blank s = true ->
  lstrip_with is_space2 is_space3 s = EmptyString.
Proof.
  revert s. induction n as [|n IH]; intros s Hlen Hb;
    destruct s as [|a r1]; try reflexivity;
    cbn [String.length] in Hlen; [lia|].
  cbn [blank lstrip_with] in *.
  destruct (is_space a).
  - apply IH; [lia | exact Hb].
  - destruct r1 as [|b r2]; [discriminate|].
    cbn [String.length] in Hlen.
    destruct (is_space2 a b).
    + apply IH; [lia | exact Hb].
    + destruct r2 as [|c r3]; [discriminate|].
      cbn [String.length] in Hlen.
      destruct (is_space3 a b c); [|discriminate].
      apply IH; [lia | exact Hb].
Qed.

Lemma lstrip_blank (s : string) : blank s = true -> lstrip s = EmptyString.
Proof. apply (lstrip_blank_upto (String.length s) s), Nat.le_refl. Qed.

Lemma strip_blank (s : string) : blank s = true -> strip s = EmptyString.
Proof.
  intros H. unfold strip. rewrite (lstrip_blank s H). reflexivity.
Qed.

(** The table the script writes holds integers: its cast never raises. *)
Lemma saved_table_casts (df : DataFrame) : cast_raises (to_save df) = false.
Proof.
  unfold cast_raises, to_save.
  induction df as [|r df IH]; [reflexivity|].
  cbn [map existsb]. rewrite IH. reflexivity.
Qed.

Lemma load_checked_saved (df : DataFrame) (st : Store) :
  load_data_checked (save_data (to_save df) st)
  = Some (load_data (save_data (to_save df) st)).
Proof.
  unfold load_data_checked, save_data. cbn [cache disk].
  rewrite saved_table_casts. reflexivity.
Qed.

End MoreFacts.

(** X13. When the export offers a calendar it holds one event per selected
    record, in table order, never none; each event carries the id of its
    record and starts on the day of that record's next service, which
    lies in the export window. *)
Theorem export_events (df : DataFrame) (today horizon_days : Z)
    (events : list VEvent)
    (Hexp : tab_export df today horizon_days = ExportDownload events) :
  events = map vevent (upc df today horizon_days)
  /\ List.length events = List.length (upc df today horizon_days)
  /\ events <> []
  /\ Forall (fun ev =>
               exists r d,
                 In r df /\ ev = vevent r
                 /\ next_service_date r = Some d
                 /\ ev_uid ev = id r
                 /\ ev_dtstart ev = Some (ts_date d)
                 /\ today <= ts_date d <= today + horizon_days)
            events.
Proof.
  destruct (tab_export_cases df today horizon_days) as [[_ He]|[Hne He]];
    rewrite He in Hexp; [discriminate|].
  injection Hexp as <-.
  split; [reflexivity|].
  split; [apply length_map|].
  split.
  { destruct (upc df today horizon_days); [congruence | discriminate]. }
  apply Forall_forall. intros ev Hev.
  apply in_map_iff in Hev as [r [Hr Hin]].
  apply upc_In in Hin as [Hin [d [Hd Hw]]].
  exists r, d. subst ev.
  split; [exact Hin|]. split; [reflexivity|]. split; [exact Hd|].
  split; [reflexivity|].
  split; [|exact Hw].
  unfold vevent. cbn [ev_dtstart]. rewrite export_next_eq, Hd. reflexivity.
Qed.

Lemma export_events_witness :
  exists events,
    tab_export [archived_row; overdue_row] (ymd2ord 2024 6 20) 60
    = ExportDownload events
    /\ List.length events = 1%nat.
Proof.
  exists [vevent archived_row].
  assert (He : tab_export [archived_row; overdue_row] (ymd2ord 2024 6 20) 60
               = ExportDownload [vevent archived_row]) by (vm_compute; reflexivity).
  split; [exact He|].
  destruct (export_events _ _ _ _ He) as [_ [Hlen _]].
  rewrite Hlen. vm_compute. reflexivity.
Defined.

(** X14. An overdue record is never offered for the calendar: no row of
    Overdue, under any sidebar filter, is selected by the export, for any
    export horizon; and every selected row is due today or later. *)
Theorem overdue_never_exported {T : TextOps} (df : DataFrame)
    (status_filter : list string) (search : string)
    (today horizon_days : Z) :
  Forall (fun r => ~ In r (upc df today horizon_days))
         (overdue (filtered df status_filter search) today)
  /\ Forall (fun r => ~ In r (overdue df today)) (upc df today horizon_days)
  /\ Forall (fun r => exists k, days_to_next today (next_service_date r) = Some k
                                /\ 0 <= k)
            (upc df today horizon_days).
Proof.
  split; [|split]; apply Forall_forall; intros r Hr.
  - intros Hu.
    apply overdue_In in Hr as [_ [d [Hd Hlt]]].
    apply upc_In in Hu as [_ [d' [Hd' Hw]]].
    rewrite Hd in Hd'. injection Hd' as <-. lia.
  - intros Ho.
    apply overdue_In in Ho as [_ [d [Hd Hlt]]].
    apply upc_In in Hr as [_ [d' [Hd' Hw]]].
    rewrite Hd in Hd'. injection Hd' as <-. lia.
  - apply upc_In in Hr as [_ [d [Hd Hw]]].
    rewrite Hd. exists (ts_date d - today). split; [reflexivity | lia].
Qed.

(** X15. The chart counts every scheduled record once: the counts of the
    monthly series add up to the number of rows of the filtered view that
    have a next-service-date. *)
Theorem monthly_total (fl : DataFrame) :
  total_tasks (monthly (chart_df fl)) = Z.of_nat (List.length (chart_df fl))
  /\ total_tasks (monthly (chart_df fl)) <= Z.of_nat (List.length fl).
Proof.
  assert (H : total_tasks (monthly (chart_df fl))
              = Z.of_nat (List.length (chart_df fl))).
  { unfold monthly, groupby_size.
    rewrite total_groupby, chart_df_months. reflexivity. }
  split; [exact H|].
  rewrite H. apply Nat2Z.inj_le. unfold chart_df. apply filter_length_le.
Qed.

(** X16. A table without id values is numbered by load: its rows get the
    ids 1, 2, ..., n in row order, which are distinct, and the next Add
    assigns n + 1. *)
Theorem idless_table_numbered (rows : list CsvRow)
    (Hnone : forall c, In c rows -> csv_id c = None) :
  let df := read_frame rows in
  map id df = map Some (range 1 (List.length rows))
  /\ present_ids df = range 1 (List.length rows)
  /\ NoDup (present_ids df)
  /\ new_id df = Some (Z.of_nat (List.length rows) + 1).
Proof.
  intros df.
  assert (Hids : map id df = map Some (range 1 (List.length rows))).
  { unfold df. rewrite read_frame_ids. unfold loaded_ids.
    assert (Hall : forallb (fun r => isnull (csv_id r)) rows = true).
    { apply forallb_forall. intros c Hc. rewrite (Hnone c Hc). reflexivity. }
    rewrite Hall. reflexivity. }
  assert (Hp : present_ids df = range 1 (List.length rows))
    by (apply present_ids_Some; exact Hids).
  split; [exact Hids|].
  split; [exact Hp|].
  split; [rewrite Hp; apply range_NoDup|].
  destruct (new_id_total df (read_frame_has_id rows)) as [m Hm].
  rewrite Hm. f_equal.
  destruct (new_id_max df m Hm) as [[Hnil ->]|[Hne [Hin Hmax]]].
  - assert (Hlen : List.length df = List.length rows)
      by (apply read_frame_length).
    rewrite Hnil in Hlen. cbn [List.length] in Hlen. rewrite <- Hlen. reflexivity.
  - assert (Hlen : List.length df = List.length rows)
      by (apply read_frame_length).
    assert (Hpos : (0 < List.length rows)%nat).
    { destruct df; [congruence | cbn [List.length] in Hlen; lia]. }
    apply present_ids_In in Hin. rewrite Hp in Hin. apply range_In in Hin.
    assert (Hn : In (Z.of_nat (List.length rows)) (present_ids df)).
    { rewrite Hp. apply range_In. lia. }
    apply present_ids_In in Hn. specialize (Hmax _ Hn). lia.
Qed.

Lemma idless_table_numbered_witness :
  map id (read_frame [idless_csv; idless_csv]) = [Some 1; Some 2]
  /\ new_id (read_frame [idless_csv; idless_csv]) = Some 3.
Proof.
  assert (Hnone : forall c, In c [idless_csv; idless_csv] -> csv_id c = None).
  { intros c [<-|[<-|[]]]; reflexivity. }
  destruct (idless_table_numbered [idless_csv; idless_csv] Hnone)
    as [Hids [_ [_ Hnew]]].
  split; [exact Hids | exact Hnew].
Defined.

(** X17. A name of white space only, the Unicode white space that
    [str.strip] strips included, is stored as no name: Add strips it to
    the empty text, writes the record all the same, and the next load
    returns one row more, the last of which has the new id and no name. *)
Theorem add_blank_name (df : DataFrame) (inp : AddInput) (st : Store) (n : Z)
    (Hid : new_id df = Some n)
    (Hblank : blank (in_name inp) = true) :
  exists st' front last,
    add_form df inp true st = Some (st', [Success_added])
    /\ name (new_row n inp) = Some EmptyString
    /\ load_data_checked st' = Some (front ++ [last], snd (load_data st'))
    /\ fst (load_data st') = front ++ [last]
    /\ List.length front = List.length df
    /\ id last = Some n
    /\ name last = None.
Proof.
  assert (Hname : name (new_row n inp) = Some EmptyString).
  { unfold new_row. cbn [name]. rewrite (strip_blank _ Hblank). reflexivity. }
  unfold add_form. rewrite Hid.
  set (st1 := match in_photo inp with
              | Some _ => mkStore (disk st) (cache st) (photo_path n inp :: images st)
              | None => st
              end).
  exists (save_data (to_save (df ++ [new_row n inp])) st1),
         (map reloaded df), (reloaded (new_row n inp)).
  split; [reflexivity|].
  split; [exact Hname|].
  assert (Hload : forall st0,
             fst (load_data (save_data (to_save (df ++ [new_row n inp])) st0))
             = map reloaded df ++ [reloaded (new_row n inp)]).
  { intros st0. rewrite (load_saved_frame (df ++ [new_row n inp]) _ n).
    - rewrite map_app. reflexivity.
    - rewrite map_app, in_app_iff. right. left. reflexivity. }
  split.
  { rewrite load_checked_saved. f_equal.
    rewrite <- (Hload st1). apply surjective_pairing. }
  split; [apply Hload|].
  split; [apply length_map|].
  split; [reflexivity|].
  unfold reloaded. cbn [name]. rewrite Hname. reflexivity.
Qed.

Lemma add_blank_name_witness :
  blank (in_name blank_name_input) = true
  /\ exists st' front last,
       add_form [scenario_row] blank_name_input true (store_of [scenario_row])
       = Some (st', [Success_added])
       /\ fst (load_data st') = front ++ [last]
       /\ id last = Some 2
       /\ name last = None.
Proof.
  split; [reflexivity|].
  destruct (add_blank_name [scenario_row] blank_name_input
              (store_of [scenario_row]) 2 eq_refl eq_refl)
    as [st' [front [last [Hadd [_ [_ [Hload [_ [Hi Hname]]]]]]]]].
  exists st', front, last. split; [exact Hadd|].
  split; [exact Hload|]. split; [exact Hi | exact Hname].
Defined.

(** ** Repeating an operation *)

Section Repeats.

Lemma assign_idem (g : Row -> Row) (sid : option Z) (df : DataFrame) :
  (forall r, id_is sid (g r) = id_is sid r) ->
  (forall r, g (g r) = g r) ->
  map (fun r => if id_is sid r then g r else r)
      (map (fun r => if id_is sid r then g r else r) df)
  = map (fun r => if id_is sid r then g r else r) df.
Proof.
  intros Hid Hg. rewrite map_map. apply map_ext. intros r.
  destruct (id_is sid r) eqn:Hr.
  - rewrite Hid, Hr. apply Hg.
  - rewrite Hr. reflexivity.
Qed.

Lemma new_id_after_add (df : DataFrame) (n : Z) (row : Row) :
  new_id df = Some n -> id row = Some n -> new_id (df ++ [row]) = Some (n + 1).
Proof.
  intros Hn Hrow.
  assert (Hin : In (Some n) (map id (df ++ [row]))).
  { rewrite map_app, in_app_iff. right. left. exact Hrow. }
  destruct (new_id_total (df ++ [row]) (or_intror (ex_intro _ n Hin))) as [m Hm].
  rewrite Hm. f_equal.
  destruct (new_id_max (df ++ [row]) m Hm) as [[Hnil _]|[_ [Hlast Hmax]]].
  - destruct df; discriminate.
  - specialize (Hmax n Hin).
    rewrite map_app, in_app_iff in Hlast.
    destruct Hlast as [Hold|[Hnew|[]]].
    + destruct (new_id_max df n Hn) as [[Hnil _]|[_ [_ Hmax0]]].
      * subst df. destruct Hold.
      * specialize (Hmax0 _ Hold). lia.
    + rewrite Hrow in Hnew. injection Hnew as Hnew. lia.
Qed.

End Repeats.

(** X18. Ids are handed out one after another: after an Add that assigned
    [n], the id the next Add assigns, on the extended frame as on the
    frame loaded in the next run, is [n + 1]. *)
Theorem consecutive_ids (df : DataFrame) (inp : AddInput) (st : Store) (n : Z)
    (Hid : new_id df = Some n) :
  exists st',
    add_form df inp true st = Some (st', [Success_added])
    /\ new_id (df ++ [new_row n inp]) = Some (n + 1)
    /\ new_id (fst (load_data st')) = Some (n + 1).
Proof.
  assert (Hnext : new_id (df ++ [new_row n inp]) = Some (n + 1))
    by (apply new_id_after_add; [exact Hid | reflexivity]).
  unfold add_form. rewrite Hid.
  eexists. split; [reflexivity|].
  split; [exact Hnext|].
  rewrite (load_saved_frame (df ++ [new_row n inp]) _ n).
  - rewrite <- Hnext. apply new_id_by_ids. apply map_id_reloaded.
  - rewrite map_app, in_app_iff. right. left. reflexivity.
Qed.

Lemma consecutive_ids_witness :
  exists st',
    add_form [scenario_row] pump_input true empty_store
    = Some (st', [Success_added])
    /\ new_id (fst (load_data st')) = Some 3.
Proof.
  destruct (consecutive_ids [scenario_row] pump_input empty_store 2 eq_refl)
    as [st' [Hadd [_ Hnext]]].
  exists st'. split; [exact Hadd | exact Hnext].
Defined.

(** X19. Mark-Serviced and Edit are idempotent: pressing the button a
    second time on the same day, or submitting the same form again, finds
    the target again, leaves the frame as the first time left it and
    writes the same table. *)
Theorem mark_and_edit_idempotent (df : DataFrame) (selected_id : option Z)
    (today : date) (e : EditInput) (st : Store) (row : Row)
    (Hrow : selected_row df selected_id = Some row) :
  (exists df1 st1 st2,
      mark_serviced df selected_id today st
      = Some (df1, st1, [Success_date_updated])
      /\ mark_serviced df1 selected_id today st1
         = Some (df1, st2, [Success_date_updated])
      /\ disk st2 = disk st1)
  /\ (exists df1 st1 st2,
        edit_form df selected_id e true st = Some (df1, st1, [Success_saved])
        /\ edit_form df1 selected_id e true st1 = Some (df1, st2, [Success_saved])
        /\ disk st2 = disk st1).
Proof.
  split.
  - set (g := fun r => set_last_service_date r (Some (to_datetime today))).
    set (df1 := map (fun r => if id_is selected_id r then g r else r) df).
    assert (Hsel : selected_row df1 selected_id = Some (g row)).
    { unfold df1. rewrite (selected_row_map g selected_id df), Hrow;
        [reflexivity | intros r; reflexivity]. }
    assert (Hidem : map (fun r => if id_is selected_id r then g r else r) df1 = df1).
    { unfold df1. apply assign_idem; intros r; reflexivity. }
    exists df1, (save_data (to_save df1) st),
           (save_data (to_save df1) (save_data (to_save df1) st)).
    split; [unfold mark_serviced; rewrite Hrow; reflexivity|].
    split; [|reflexivity].
    unfold mark_serviced. rewrite Hsel. unfold g in Hidem. rewrite Hidem.
    reflexivity.
  - set (g := fun r => set_edited r e).
    set (df1 := map (fun r => if id_is selected_id r then g r else r) df).
    assert (Hsel : selected_row df1 selected_id = Some (g row)).
    { unfold df1. rewrite (selected_row_map g selected_id df), Hrow;
        [reflexivity | intros r; reflexivity]. }
    assert (Hidem : map (fun r => if id_is selected_id r then g r else r) df1 = df1).
    { unfold df1. apply assign_idem; intros r; reflexivity. }
    exists df1, (save_data (to_save df1) st),
           (save_data (to_save df1) (save_data (to_save df1) st)).
    split; [unfold edit_form; rewrite Hrow; reflexivity|].
    split; [|reflexivity].
    unfold edit_form. rewrite Hsel. unfold g in Hidem. rewrite Hidem.
    reflexivity.
Qed.

Lemma mark_and_edit_idempotent_witness :
  exists df1 st1 st2,
    mark_serviced [overdue_row; scenario_row] (Some 7) (ymd2ord 2024 6 20)
                  empty_store
    = Some (df1, st1, [Success_date_updated])
    /\ mark_serviced df1 (Some 7) (ymd2ord 2024 6 20) st1
       = Some (df1, st2, [Success_date_updated]).
Proof.
  destruct (mark_and_edit_idempotent [overdue_row; scenario_row] (Some 7)
              (ymd2ord 2024 6 20) repair_input empty_store overdue_row eq_refl)
    as [[df1 [st1 [st2 [H1 [H2 _]]]]] _].
  exists df1, st1, st2. split; [exact H1 | exact H2].
Defined.
